(** * Worker service: background job loop, shutdown flag and metrics endpoint

    A shallow embedding of [src/worker-service/main.py].

    The module globals of the Python file become one record, [Globals].  The
    rest of what the functions can see or change (the clock advanced by
    [time.sleep], the termination signals still to arrive, the lines written
    through [logger]) is gathered in [World].  Python statements run in a
    state-and-exception monad [M] over [World]; the [while running] loop
    takes fuel.

    Time is counted in the unit of [time.sleep]'s argument (seconds).  Only
    [time.sleep] lets time pass; every other statement is instantaneous.
    A signal whose arrival time falls inside a sleep interrupts it, the
    handler runs, and the sleep then resumes for the rest of its duration
    (PEP 475), so a sleep of [d] always lasts [d].

    Strings are byte strings, and [str.lower] is modelled on ASCII
    letters.  The built-in [int] is a parameter of the loader; what is
    assumed of it is stated where it is needed. *)

From Stdlib Require Import ZArith QArith Lqa Ascii String DecimalString DecimalZ.
From stdpp Require Import base option list strings gmap.

#[local] Open Scope Z_scope.
#[local] Open Scope string_scope.

(** ** Values of the Python program *)

(** [f"{n}"] for an [int]. *)
Definition str_of_int (n : Z) : string := NilZero.string_of_int (Z.to_int n).

(** The classes of the exceptions that matter to an [except Exception]
    clause: everything below [Exception], and the three built-in classes
    that derive from [BaseException] only. *)
Inductive PyExcClass :=
| ExceptionSubclass (name : string)
| SystemExit
| KeyboardInterrupt
| GeneratorExit.

(** An exception object: its class, and what [str] does with it.  [str(e)]
    runs the [__str__] of the class, which returns a string or raises in
    its turn. *)
Inductive PyExc :=
| mkExc (cls : PyExcClass) (msg : string)        (* [str(e)] is [msg] *)
| mkExcNoStr (cls : PyExcClass) (raised : PyExc). (* [str(e)] raises [raised] *)

Definition exc_class (e : PyExc) : PyExcClass :=
  match e with
  | mkExc cls _ => cls
  | mkExcNoStr cls _ => cls
  end.

(** [isinstance(e, Exception)] *)
Definition isinstance_Exception (e : PyExc) : bool :=
  match exc_class e with
  | ExceptionSubclass _ => true
  | _ => false
  end.

(** The signals [run_worker] registers [signal_handler] for, with their
    Linux numbers. *)
Inductive Signum := SIGTERM | SIGINT.

Definition signum_value (s : Signum) : Z :=
  match s with SIGTERM => 15 | SIGINT => 2 end.

(** One delivery of a signal to the process: when, and which. *)
Record Signal := mkSignal { sig_time : Q; sig_num : Signum }.

(** A record written through [logger]. *)
Inductive LogRecord :=
| LogInfo (msg : string)
| LogError (msg : string).

(** JSON values handed to [jsonify]. *)
Inductive JsonValue :=
| JStr (s : string)
| JInt (n : Z)
| JBool (b : bool)
| JSeconds (n : Z)      (* a float number of seconds *)
| JTimestamp (t : Z).   (* an ISO-8601 rendering of the instant [t] *)

(** A [dict] literal handed to [jsonify], in source order. *)
Definition JsonObject := list (string * JsonValue).

Fixpoint json_get (k : string) (o : JsonObject) : option JsonValue :=
  match o with
  | [] => None
  | (k', v) :: o' => if String.eqb k k' then Some v else json_get k o'
  end.

(** ** Module globals and the world around them *)

Record Globals := mkGlobals {
  FEATURE_BETA : bool;
  ENVIRONMENT : string;
  JOB_INTERVAL : Z;
  start_time : Z;
  ready : bool;
  running : bool;
  jobs_processed : Z
}.

Record World := mkWorld {
  globals : Globals;
  clock : Z;                 (* now, in time units *)
  pending : list Signal;     (* signals not yet delivered, in arrival order *)
  log : list LogRecord       (* oldest first *)
}.

Definition set_running (b : bool) (g : Globals) : Globals :=
  mkGlobals (FEATURE_BETA g) (ENVIRONMENT g) (JOB_INTERVAL g) (start_time g)
            (ready g) b (jobs_processed g).

Definition set_jobs_processed (n : Z) (g : Globals) : Globals :=
  mkGlobals (FEATURE_BETA g) (ENVIRONMENT g) (JOB_INTERVAL g) (start_time g)
            (ready g) (running g) n.

Definition with_globals (g : Globals) (w : World) : World :=
  mkWorld g (clock w) (pending w) (log w).

Definition with_log (l : list LogRecord) (w : World) : World :=
  mkWorld (globals w) (clock w) (pending w) l.

(** ** The monad of Python statements *)

Inductive Result (A : Type) :=
| Ok (a : A)
| Raise (e : PyExc).
Arguments Ok {A} a.
Arguments Raise {A} e.

(** [str(e)], which an f-string [f"{e}"] evaluates. *)
Definition str_of_exc (e : PyExc) : Result string :=
  match e with
  | mkExc _ msg => Ok msg
  | mkExcNoStr _ raised => Raise raised
  end.

Definition M (A : Type) : Type := World -> Result A * World.

Definition ret {A} (a : A) : M A := fun w => (Ok a, w).

Definition bind {A B} (c : M A) (k : A -> M B) : M B :=
  fun w =>
    match c w with
    | (Ok a, w1) => k a w1
    | (Raise e, w1) => (Raise e, w1)
    end.

Definition raise {A} (e : PyExc) : M A := fun w => (Raise e, w).

(** A computation that touches nothing. *)
Definition pure_result {A} (r : Result A) : M A := fun w => (r, w).

Notation "x <- c ;; k" := (bind c (fun x => k))
  (at level 100, c at next level, right associativity).
Notation "c ;;; k" := (bind c (fun _ => k))
  (at level 100, right associativity).

Definition get_globals : M Globals := fun w => (Ok (globals w), w).

Definition modify_globals (f : Globals -> Globals) : M unit :=
  fun w => (Ok tt, with_globals (f (globals w)) w).

(** [try: body / except Exception as e: handler(e)].  What the body did
    before it raised stays done; exceptions outside [Exception] pass
    through. *)
Definition try_except_Exception {A} (body : M A) (handler : PyExc -> M A) : M A :=
  fun w =>
    match body w with
    | (Ok a, w1) => (Ok a, w1)
    | (Raise e, w1) =>
        if isinstance_Exception e then handler e w1 else (Raise e, w1)
    end.

(** ** Logging *)

Definition logger_info (msg : string) : M unit :=
  fun w => (Ok tt, with_log (log w ++ [LogInfo msg]) w).

Definition logger_error (msg : string) : M unit :=
  fun w => (Ok tt, with_log (log w ++ [LogError msg]) w).

(** ** Signals and sleeping *)

(** [signal_handler(signum, frame)] *)
Definition signal_handler (signum : Signum) : M unit :=
  logger_info ("Received signal " +:+ str_of_int (signum_value signum)
               +:+ ", shutting down gracefully...") ;;;
  modify_globals (set_running false).

Definition Qltb (x y : Q) : bool := negb (Qle_bool y x).

(** Has the signal arrived before the instant [t]? *)
Definition due_before (t : Z) (s : Signal) : bool := Qltb (sig_time s) (inject_Z t).

(** Run the handler for each signal of the list, in order. *)
Fixpoint deliver (sigs : list Signal) : M unit :=
  match sigs with
  | [] => ret tt
  | s :: rest => signal_handler (sig_num s) ;;; deliver rest
  end.

(** [time.sleep(d)]: the clock moves to [clock + d]; the signals that
    arrive before that instant are taken off the schedule and handled. *)
Definition time_sleep (d : Z) : M unit :=
  fun w =>
    let t := clock w + d in
    deliver (List.filter (due_before t) (pending w))
            (mkWorld (globals w) t
                     (List.filter (fun s => negb (due_before t s)) (pending w))
                     (log w)).

(** ** [process_job] *)

Definition process_job (job_id : string) : M bool :=
  logger_info ("Processing job " +:+ job_id) ;;;
  time_sleep 2 ;;;
  g <- get_globals ;;
  (if FEATURE_BETA g
   then logger_info ("Job " +:+ job_id +:+ " - Beta processing enabled") ;;;
        time_sleep 1
   else ret tt) ;;;
  logger_info ("Completed job " +:+ job_id) ;;;
  ret true.

(** ** The HTTP endpoints *)

Definition Response : Type := JsonObject * Z.

(** [datetime.utcnow()] *)
Definition utcnow : M Z := fun w => (Ok (clock w), w).

(** [GET /health] *)
Definition health : M Response :=
  now <- utcnow ;;
  ret ([("status", JStr "healthy");
        ("service", JStr "worker-service");
        ("timestamp", JTimestamp now)], 200).

(** [GET /ready] *)
Definition readiness : M Response :=
  g <- get_globals ;;
  if ready g
  then now <- utcnow ;;
       ret ([("status", JStr "ready");
             ("service", JStr "worker-service");
             ("timestamp", JTimestamp now)], 200)
  else now <- utcnow ;;
       ret ([("status", JStr "not ready");
             ("service", JStr "worker-service");
             ("timestamp", JTimestamp now)], 503).

(** [GET /metrics] *)
Definition metrics : M Response :=
  now <- utcnow ;;
  g <- get_globals ;;
  let uptime := now - start_time g in
  ret ([("service", JStr "worker-service");
        ("environment", JStr (ENVIRONMENT g));
        ("uptime_seconds", JSeconds uptime);
        ("jobs_processed", JInt (jobs_processed g));
        ("job_interval", JInt (JOB_INTERVAL g));
        ("beta_enabled", JBool (FEATURE_BETA g))], 200).

(** The routes registered on [app], for the [GET] method. *)
Definition app_get (path : string) : option (M Response) :=
  if String.eqb path "/health" then Some health
  else if String.eqb path "/ready" then Some readiness
  else if String.eqb path "/metrics" then Some metrics
  else None.

(** ** [run_worker] *)

(** [f"job-{jobs_processed + 1}"] *)
Definition next_job_id (g : Globals) : string :=
  "job-" +:+ str_of_int (jobs_processed g + 1).

(** The [for _ in range(n)] loop that waits before the next job. *)
Fixpoint wait_loop (n : nat) : M unit :=
  match n with
  | O => ret tt
  | S n' =>
      g <- get_globals ;;
      if negb (running g) then ret tt
      else time_sleep 1 ;;; wait_loop n'
  end.

(** [range(JOB_INTERVAL)] is evaluated once, when the [for] starts; it is
    empty for a non-positive bound. *)
Definition inter_job_wait : M unit :=
  g <- get_globals ;;
  wait_loop (Z.to_nat (JOB_INTERVAL g)).

Section Worker.

(** What the name [process_job] is bound to when the loop calls it. *)
Variable job : string -> M bool.

(** The body of the [try] statement. *)
Definition try_body : M unit :=
  g <- get_globals ;;
  job (next_job_id g) ;;;
  modify_globals (fun g => set_jobs_processed (jobs_processed g + 1) g) ;;;
  inter_job_wait.

(** The [except Exception as e] clause.  The f-string is evaluated first,
    inside the handler: if [str(e)] raises, that exception leaves the [try]
    statement, nothing is logged and there is no back-off. *)
Definition except_clause (e : PyExc) : M unit :=
  msg <- pure_result (str_of_exc e) ;;
  logger_error ("Error processing job: " +:+ msg) ;;;
  time_sleep 5.

(** One pass through the body of [while running]. *)
Definition iteration : M unit :=
  try_except_Exception try_body except_clause.

Inductive LoopEnd :=
| Finished                 (* [running] was found false *)
| OutOfFuel                (* the fuel ran out with [running] still true *)
| Propagated (e : PyExc).  (* an exception left the loop *)

(** [while running: ...], for at most [fuel] passes. *)
Fixpoint worker_loop (fuel : nat) (w : World) : LoopEnd * World :=
  if running (globals w) then
    match fuel with
    | O => (OutOfFuel, w)
    | S fuel' =>
        match iteration w with
        | (Ok _, w1) => worker_loop fuel' w1
        | (Raise e, w1) => (Propagated e, w1)
        end
    end
  else (Finished, w).

(** [run_worker()].  Registering [signal_handler] for SIGTERM and SIGINT
    changes nothing in [World]: every signal on the schedule is one of
    the two and is given to [signal_handler]. *)
Definition run_worker_with (fuel : nat) (w : World) : LoopEnd * World :=
  match (g <- get_globals ;;
         logger_info ("Starting worker service in " +:+ ENVIRONMENT g
                      +:+ " environment") ;;;
         logger_info ("Job interval: " +:+ str_of_int (JOB_INTERVAL g)
                      +:+ " seconds") ;;;
         logger_info ("Beta features: "
                      +:+ (if FEATURE_BETA g then "True" else "False"))) w
  with
  | (Raise e, w1) => (Propagated e, w1)
  | (Ok _, w1) =>
      match worker_loop fuel w1 with
      | (Finished, w2) =>
          (Finished,
           snd (logger_info ("Worker stopped. Total jobs processed: "
                             +:+ str_of_int (jobs_processed (globals w2))) w2))
      | (r, w2) => (r, w2)
      end
  end.

End Worker.

Definition run_worker : nat -> World -> LoopEnd * World := run_worker_with process_job.

(** ** Configuration read from the environment *)

(** [str.lower], on ASCII letters. *)
Definition lower_ascii (c : ascii) : ascii :=
  let n := nat_of_ascii c in
  if ((65 <=? n) && (n <=? 90))%nat then ascii_of_nat (n + 32) else c.

Fixpoint lower (s : string) : string :=
  match s with
  | EmptyString => EmptyString
  | String c s' => String (lower_ascii c) (lower s')
  end.

(** *** The built-in [int] on strings

    [int] is not code of this module: the loader below takes it as a
    parameter.  Where a statement depends on what [int] does, it assumes
    [reads_plain_literals]: on a plain string (ASCII characters only, and
    no more than 640 of them, the lowest limit on digits CPython can be
    set to) [int] skips blanks at both ends, reads an optional sign
    followed by decimal digits with single underscores allowed between
    two digits, and raises [ValueError] on anything else.  What [int] does
    with other strings (Unicode digits or blanks, literals beyond the
    digit limit) is left open. *)

(** The ASCII characters [int] skips around a literal: tab, line feed,
    vertical tab, form feed, carriage return and space. *)
Definition is_space (c : ascii) : bool :=
  let n := nat_of_ascii c in
  (((9 <=? n) && (n <=? 13)) || (n =? 32))%nat.

Fixpoint lstrip (cs : list ascii) : list ascii :=
  match cs with
  | c :: cs' => if is_space c then lstrip cs' else cs
  | [] => []
  end.

Definition strip (cs : list ascii) : list ascii :=
  rev (lstrip (rev (lstrip cs))).

Definition digit_value (c : ascii) : option Z :=
  let n := Z.of_nat (nat_of_ascii c) in
  if ((48 <=? n)%Z && (n <=? 57)%Z) then Some (n - 48) else None.

(** Decimal digits, with single underscores allowed between two digits. *)
Fixpoint parse_digits (acc : Z) (after_digit : bool) (cs : list ascii) : option Z :=
  match cs with
  | [] => if after_digit then Some acc else None
  | c :: cs' =>
      match digit_value c with
      | Some d => parse_digits (10 * acc + d) true cs'
      | None =>
          if Ascii.eqb c "_" && after_digit then parse_digits acc false cs'
          else None
      end
  end.

(** The number a plain string is a literal of, if it is one. *)
Definition parse_int (s : string) : option Z :=
  match strip (list_ascii_of_string s) with
  | "+"%char :: cs => parse_digits 0 false cs
  | "-"%char :: cs => Z.opp <$> parse_digits 0 false cs
  | cs => parse_digits 0 false cs
  end.

(** The plain strings. *)
Definition plain (s : string) : bool :=
  forallb (fun c => (nat_of_ascii c <? 128)%nat) (list_ascii_of_string s)
  && (String.length s <=? 640)%nat.

(** What is assumed of the built-in [int]. *)
Definition reads_plain_literals (py_int : string -> Result Z) : Prop :=
  forall s,
    plain s = true ->
    match parse_int s with
    | Some n => py_int s = Ok n
    | None => exists msg, py_int s = Raise (mkExc (ExceptionSubclass "ValueError") msg)
    end.

(** One function that meets [reads_plain_literals], for the examples: it
    reads every string the way plain strings are read. *)
Definition plain_int (s : string) : Result Z :=
  match parse_int s with
  | Some n => Ok n
  | None =>
      Raise (mkExc (ExceptionSubclass "ValueError")
                   ("invalid literal for int() with base 10: '" +:+ s +:+ "'"))
  end.

(** [os.getenv(key, default)] with a string default. *)
Definition getenv (env : gmap string string) (key dflt : string) : string :=
  default dflt (env !! key).

Section Loader.

(** The built-in [int], applied to a string. *)
Variable py_int : string -> Result Z.

(** The assignments at module level (lines 20 to 28), run at the instant
    [now]. *)
Definition load_globals (env : gmap string string) (now : Z) : Result Globals :=
  let feature_beta := String.eqb (lower (getenv env "FEATURE_BETA" "false")) "true" in
  let environment := getenv env "ENVIRONMENT" "unknown" in
  match py_int (getenv env "JOB_INTERVAL" "30") with
  | Raise e => Raise e
  | Ok job_interval =>
      Ok (mkGlobals feature_beta environment job_interval now true true 0)
  end.

(** [port = int(os.getenv('PORT', 8080))]: the default is already an
    [int]. *)
Definition load_port (env : gmap string string) : Result Z :=
  match env !! "PORT" with
  | Some s => py_int s
  | None => Ok 8080
  end.

(** The process right after start-up, with the signals it is going to
    receive. *)
Definition boot (env : gmap string string) (now : Z) (sigs : list Signal)
  : Result World :=
  match load_globals env now with
  | Raise e => Raise e
  | Ok g => Ok (mkWorld g now sigs [])
  end.

End Loader.

(** ** Everything that can happen to a started worker *)

Inductive Op :=
| OpSignal (s : Signum)          (* a signal is handled *)
| OpSleep (d : Z)                (* [time.sleep(d)] *)
| OpProcessJob (job_id : string) (* [process_job(job_id)] *)
| OpIteration                    (* one pass of the loop body *)
| OpWait                         (* the wait between two jobs *)
| OpRunWorker (fuel : nat)       (* [run_worker()] *)
| OpGet (path : string).         (* a [GET] request *)

Definition exec_op (o : Op) (w : World) : World :=
  match o with
  | OpSignal s => snd (signal_handler s w)
  | OpSleep d => snd (time_sleep d w)
  | OpProcessJob j => snd (process_job j w)
  | OpIteration => snd (iteration process_job w)
  | OpWait => snd (inter_job_wait w)
  | OpRunWorker fuel => snd (run_worker fuel w)
  | OpGet path =>
      match app_get path with
      | Some h => snd (h w)
      | None => w
      end
  end.

Definition exec_ops (ops : list Op) (w : World) : World :=
  fold_left (fun w o => exec_op o w) ops w.

(** [s.startswith(p)] *)
Fixpoint startswith (p s : string) : bool :=
  match p with
  | EmptyString => true
  | String a p' =>
      match s with
      | EmptyString => false
      | String b s' => Ascii.eqb a b && startswith p' s'
      end
  end.

(** The number of jobs the log reports as completed. *)
Definition is_completion (r : LogRecord) : bool :=
  match r with
  | LogInfo msg => startswith "Completed job " msg
  | LogError _ => false
  end.

Definition completions (l : list LogRecord) : Z :=
  Z.of_nat (length (List.filter is_completion l)).

(** * Vocabulary of the statements *)

(** ** How globals may change

    [evolves g g'] is everything a started worker can do to its globals:
    the configuration stays, [running] does not come back, and the counter
    does not go down. *)

Record evolves (g g' : Globals) : Prop := mkEvolves {
  ev_beta : FEATURE_BETA g' = FEATURE_BETA g;
  ev_environment : ENVIRONMENT g' = ENVIRONMENT g;
  ev_interval : JOB_INTERVAL g' = JOB_INTERVAL g;
  ev_start : start_time g' = start_time g;
  ev_ready : ready g' = ready g;
  ev_running : running g = false -> running g' = false;
  ev_jobs : jobs_processed g <= jobs_processed g'
}.

(** The line [signal_handler] logs. *)
Definition handler_line (s : Signal) : LogRecord :=
  LogInfo ("Received signal " +:+ str_of_int (signum_value (sig_num s))
           +:+ ", shutting down gracefully...").

(** The globals after the signals of [sigs] have been handled. *)
Definition stopped_by (sigs : list Signal) (g : Globals) : Globals :=
  match sigs with
  | [] => g
  | _ :: _ => set_running false g
  end.

(** The signals a sleep of [d] delivers, and the ones it leaves. *)
Definition due (d : Z) (w : World) : list Signal :=
  List.filter (due_before (clock w + d)) (pending w).

Definition not_due (d : Z) (w : World) : list Signal :=
  List.filter (fun s => negb (due_before (clock w + d) s)) (pending w).

(** ** Transitions

    [trans w w' dt dj out]: going from [w] to [w'] took [dt] time units,
    added [dj] to the counter and wrote the records [out]; globals
    otherwise evolved as allowed. *)

Record trans (w w' : World) (dt dj : Z) (out : list LogRecord) : Prop := mkTrans {
  tr_clock : clock w' = clock w + dt;
  tr_evolves : evolves (globals w) (globals w');
  tr_jobs : jobs_processed (globals w') = jobs_processed (globals w) + dj;
  tr_log : log w' = (log w ++ out)%list
}.

(** [jobs_processed += 1] *)
Definition count_job (w : World) : World :=
  with_globals (set_jobs_processed (jobs_processed (globals w) + 1) (globals w)) w.

(** How a loop over [process_job] can end: never by an exception. *)
Definition clean_end (r : LoopEnd) : Prop :=
  match r with
  | Finished | OutOfFuel => True
  | Propagated _ => False
  end.

(** Only a pass of the loop writes the counter. *)
Definition writes_counter (o : Op) : bool :=
  match o with
  | OpIteration | OpRunWorker _ => true
  | _ => false
  end.

Definition wait_example : World :=
  mkWorld (mkGlobals false "dev" 30 0 true true 1) 2 [mkSignal (7 # 2) SIGTERM] [].


(** A job function that always fails with [ValueError], and one that
    calls [sys.exit]. *)
Definition failing_job : string -> M bool :=
  fun _ => raise (mkExc (ExceptionSubclass "ValueError") "bad payload").



Definition fresh_worker : World :=
  mkWorld (mkGlobals false "dev" 30 0 true true 0) 0 [] [].

(** A worker that has already been told to stop. *)
Definition stopped_worker : World :=
  mkWorld (mkGlobals true "prod" 30 0 true false 4) 100 [] [].

(** The four records [run_worker] writes when it does no job at all. *)
Definition idle_run_records (g : Globals) : list LogRecord :=
  [LogInfo ("Starting worker service in " +:+ ENVIRONMENT g +:+ " environment");
   LogInfo ("Job interval: " +:+ str_of_int (JOB_INTERVAL g) +:+ " seconds");
   LogInfo ("Beta features: " +:+ (if FEATURE_BETA g then "True" else "False"));
   LogInfo ("Worker stopped. Total jobs processed: " +:+ str_of_int (jobs_processed g))].

(** The three records [run_worker] writes before its loop. *)
Definition startup_records (g : Globals) : list LogRecord :=
  [LogInfo ("Starting worker service in " +:+ ENVIRONMENT g +:+ " environment");
   LogInfo ("Job interval: " +:+ str_of_int (JOB_INTERVAL g) +:+ " seconds");
   LogInfo ("Beta features: " +:+ (if FEATURE_BETA g then "True" else "False"))].

(** How long one call of [process_job] lasts. *)
Definition job_duration (g : Globals) : Z := if FEATURE_BETA g then 3 else 2.

(** * Properties *)

(** ** The monad *)

Lemma bind_Ok {A B} (c : M A) (k : A -> M B) w a w1 :
  c w = (Ok a, w1) -> bind c k w = k a w1.
Proof. unfold bind. intros ->. reflexivity. Qed.

Lemma bind_Raise {A B} (c : M A) (k : A -> M B) w e w1 :
  c w = (Raise e, w1) -> bind c k w = (Raise e, w1).
Proof. unfold bind. intros ->. reflexivity. Qed.

Lemma evolves_refl g : evolves g g.
Proof. split; auto. lia. Qed.

Lemma evolves_trans g1 g2 g3 : evolves g1 g2 -> evolves g2 g3 -> evolves g1 g3.
Proof.
  intros [] []. split; try congruence; auto. lia.
Qed.

Lemma evolves_set_running_false g : evolves g (set_running false g).
Proof. split; simpl; auto. lia. Qed.

Lemma evolves_incr g : evolves g (set_jobs_processed (jobs_processed g + 1) g).
Proof. split; simpl; auto. lia. Qed.

Lemma set_running_false_twice g :
  set_running false (set_running false g) = set_running false g.
Proof. reflexivity. Qed.

(** ** Signals and sleeping *)

Lemma signal_handler_eq s w :
  signal_handler s w =
  (Ok tt, mkWorld (set_running false (globals w)) (clock w) (pending w)
                  (log w ++ [LogInfo ("Received signal " +:+ str_of_int (signum_value s)
                                      +:+ ", shutting down gracefully...")])).
Proof. reflexivity. Qed.

Lemma deliver_eq sigs : forall w,
  deliver sigs w =
  (Ok tt, mkWorld (stopped_by sigs (globals w)) (clock w) (pending w)
                  (log w ++ map handler_line sigs)).
Proof.
  induction sigs as [|s sigs IH]; intros [g c p l]; simpl.
  - unfold ret. by rewrite app_nil_r.
  - erewrite bind_Ok by apply signal_handler_eq.
    rewrite IH. simpl. f_equal. f_equal.
    + by destruct sigs.
    + by rewrite <- app_assoc.
Qed.

Lemma time_sleep_eq d w :
  time_sleep d w =
  (Ok tt, mkWorld (stopped_by (due d w) (globals w)) (clock w + d) (not_due d w)
                  (log w ++ map handler_line (due d w))).
Proof. unfold time_sleep. by rewrite deliver_eq. Qed.

Lemma evolves_stopped_by sigs g : evolves g (stopped_by sigs g).
Proof. destruct sigs; [apply evolves_refl | apply evolves_set_running_false]. Qed.

Lemma stopped_by_jobs sigs g : jobs_processed (stopped_by sigs g) = jobs_processed g.
Proof. by destruct sigs. Qed.

Lemma completions_app l1 l2 :
  completions (l1 ++ l2)%list = completions l1 + completions l2.
Proof.
  unfold completions. rewrite List.filter_app, length_app. lia.
Qed.

Lemma completions_handler_lines sigs : completions (map handler_line sigs) = 0.
Proof.
  induction sigs as [|s sigs IH]; [reflexivity|].
  change (map handler_line (s :: sigs)) with ([handler_line s] ++ map handler_line sigs)%list.
  rewrite completions_app, IH. reflexivity.
Qed.

Lemma stopped_by_beta sigs g : FEATURE_BETA (stopped_by sigs g) = FEATURE_BETA g.
Proof. by destruct sigs. Qed.

Lemma stopped_by_interval sigs g : JOB_INTERVAL (stopped_by sigs g) = JOB_INTERVAL g.
Proof. by destruct sigs. Qed.

Lemma trans_refl w : trans w w 0 0 [].
Proof.
  split; [lia | apply evolves_refl | lia | by rewrite app_nil_r].
Qed.

Lemma trans_seq w1 w2 w3 dt1 dt2 dj1 dj2 o1 o2 :
  trans w1 w2 dt1 dj1 o1 -> trans w2 w3 dt2 dj2 o2 ->
  trans w1 w3 (dt1 + dt2) (dj1 + dj2) (o1 ++ o2)%list.
Proof.
  intros [Hc1 He1 Hj1 Hl1] [Hc2 He2 Hj2 Hl2]. split.
  - lia.
  - eapply evolves_trans; eassumption.
  - lia.
  - by rewrite Hl2, Hl1, <- app_assoc.
Qed.

Lemma logger_info_trans msg w :
  exists w', logger_info msg w = (Ok tt, w') /\ trans w w' 0 0 [LogInfo msg].
Proof.
  eexists. split; [reflexivity|]. split; simpl; [lia | apply evolves_refl | lia | done].
Qed.

Lemma logger_error_trans msg w :
  exists w', logger_error msg w = (Ok tt, w') /\ trans w w' 0 0 [LogError msg].
Proof.
  eexists. split; [reflexivity|]. split; simpl; [lia | apply evolves_refl | lia | done].
Qed.

Lemma time_sleep_trans d w :
  exists w',
    time_sleep d w = (Ok tt, w') /\
    trans w w' d 0 (map handler_line (due d w)) /\
    globals w' = stopped_by (due d w) (globals w) /\
    pending w' = not_due d w.
Proof.
  eexists. split; [apply time_sleep_eq|]. split; [|done].
  split; simpl; [done | apply evolves_stopped_by | | done].
  rewrite stopped_by_jobs. lia.
Qed.

Lemma signal_handler_trans s w :
  exists w' line,
    signal_handler s w = (Ok tt, w') /\ trans w w' 0 0 [line] /\
    is_completion line = false /\
    globals w' = set_running false (globals w).
Proof.
  eexists _, (handler_line (mkSignal 0 s)). split; [apply signal_handler_eq|].
  split; [|split; reflexivity].
  split; simpl; [lia | apply evolves_set_running_false | lia | done].
Qed.

(** ** [process_job] *)

(** Everything one call of [process_job] does. *)
Lemma process_job_run j w :
  exists w' mid,
    process_job j w = (Ok true, w') /\
    trans w w' (if FEATURE_BETA (globals w) then 3 else 2) 0
          (LogInfo ("Processing job " +:+ j) :: mid
             ++ [LogInfo ("Completed job " +:+ j)])%list /\
    completions mid = 0.
Proof.
  unfold process_job.
  destruct (logger_info_trans ("Processing job " +:+ j) w) as (w1 & E1 & T1).
  destruct (time_sleep_trans 2 w1) as (w2 & E2 & T2 & G2 & _).
  erewrite bind_Ok by exact E1. erewrite bind_Ok by exact E2.
  unfold get_globals at 1. erewrite bind_Ok by reflexivity.
  assert (Hb : FEATURE_BETA (globals w2) = FEATURE_BETA (globals w)).
  { rewrite (ev_beta _ _ (tr_evolves _ _ _ _ _ T2)).
    apply (ev_beta _ _ (tr_evolves _ _ _ _ _ T1)). }
  rewrite Hb.
  destruct (FEATURE_BETA (globals w)).
  - destruct (logger_info_trans ("Job " +:+ j +:+ " - Beta processing enabled") w2)
      as (w3 & E3 & T3).
    destruct (time_sleep_trans 1 w3) as (w4 & E4 & T4 & _).
    destruct (logger_info_trans ("Completed job " +:+ j) w4) as (w5 & E5 & T5).
    erewrite (bind_Ok (_ ;;; _)); [|erewrite bind_Ok by exact E3; exact E4].
    erewrite bind_Ok by exact E5.
    exists w5,
      (map handler_line (due 2 w1)
         ++ LogInfo ("Job " +:+ j +:+ " - Beta processing enabled")
         :: map handler_line (due 1 w3))%list.
    split; [reflexivity|]. split.
    + pose proof (trans_seq _ _ _ _ _ _ _ _ _ T1
                    (trans_seq _ _ _ _ _ _ _ _ _ T2
                       (trans_seq _ _ _ _ _ _ _ _ _ T3
                          (trans_seq _ _ _ _ _ _ _ _ _ T4 T5)))) as T.
      rewrite <- app_assoc. exact T.
    + rewrite completions_app, completions_handler_lines.
      change (LogInfo ?m :: ?l) with ([LogInfo m] ++ l)%list.
      by rewrite completions_app, completions_handler_lines.
  - destruct (logger_info_trans ("Completed job " +:+ j) w2) as (w5 & E5 & T5).
    erewrite (bind_Ok (ret tt)) by reflexivity.
    erewrite bind_Ok by exact E5.
    eexists w5, _. split; [reflexivity|]. split.
    + pose proof (trans_seq _ _ _ _ _ _ _ _ _ T1
                    (trans_seq _ _ _ _ _ _ _ _ _ T2 T5)) as T.
      simpl in T. exact T.
    + apply completions_handler_lines.
Qed.

(** ** The wait between two jobs *)

Lemma wait_loop_stopped n w :
  running (globals w) = false -> wait_loop n w = (Ok tt, w).
Proof.
  intros H. destruct n; [reflexivity|].
  simpl. unfold bind, get_globals. by rewrite H.
Qed.

Lemma wait_loop_running n w :
  running (globals w) = true ->
  wait_loop (S n) w = wait_loop n (snd (time_sleep 1 w)).
Proof.
  intros H. simpl. unfold bind at 1, get_globals. rewrite H. simpl.
  unfold bind. by rewrite time_sleep_eq.
Qed.

Lemma wait_loop_run n : forall w,
  exists w' dt out,
    wait_loop n w = (Ok tt, w') /\
    trans w w' dt 0 out /\
    completions out = 0 /\
    0 <= dt <= Z.of_nat n.
Proof.
  induction n as [|n IH]; intros w.
  - exists w, 0, []. split; [reflexivity|]. split; [apply trans_refl|]. by split.
  - destruct (running (globals w)) eqn:Hr.
    + rewrite (wait_loop_running _ _ Hr).
      destruct (time_sleep_trans 1 w) as (w1 & E1 & T1 & _).
      rewrite E1. simpl.
      destruct (IH w1) as (w' & dt & out & E & T & Hc & Hdt).
      exists w', (1 + dt), (map handler_line (due 1 w) ++ out)%list.
      split; [exact E|]. split; [|split].
      * exact (trans_seq _ _ _ _ _ _ _ _ _ T1 T).
      * by rewrite completions_app, completions_handler_lines, Hc.
      * lia.
    + rewrite (wait_loop_stopped _ _ Hr).
      exists w, 0, []. split; [reflexivity|]. split; [apply trans_refl|].
      split; [reflexivity|lia].
Qed.

Lemma inter_job_wait_eq w :
  inter_job_wait w = wait_loop (Z.to_nat (JOB_INTERVAL (globals w))) w.
Proof. reflexivity. Qed.

Lemma inter_job_wait_run w :
  exists w' dt out,
    inter_job_wait w = (Ok tt, w') /\
    trans w w' dt 0 out /\
    completions out = 0 /\
    0 <= dt <= Z.max 0 (JOB_INTERVAL (globals w)).
Proof.
  rewrite inter_job_wait_eq.
  destruct (wait_loop_run (Z.to_nat (JOB_INTERVAL (globals w))) w)
    as (w' & dt & out & E & T & Hc & Hdt).
  exists w', dt, out. repeat (split; [assumption|]). lia.
Qed.

(** ** One pass of the loop body *)

Lemma count_job_trans w : trans w (count_job w) 0 1 [].
Proof.
  split; simpl; [lia | apply evolves_incr | lia | by rewrite app_nil_r].
Qed.

Section Iteration.

Variable job : string -> M bool.

Lemma try_body_Ok w b w1 :
  job (next_job_id (globals w)) w = (Ok b, w1) ->
  try_body job w = inter_job_wait (count_job w1).
Proof.
  intros Hjob. unfold try_body.
  unfold get_globals at 1. erewrite bind_Ok by reflexivity.
  erewrite bind_Ok by exact Hjob.
  erewrite bind_Ok by reflexivity. reflexivity.
Qed.

Lemma try_body_Raise w e w1 :
  job (next_job_id (globals w)) w = (Raise e, w1) ->
  try_body job w = (Raise e, w1).
Proof.
  intros Hjob. unfold try_body.
  unfold get_globals at 1. erewrite bind_Ok by reflexivity.
  by erewrite bind_Raise by exact Hjob.
Qed.

(** The job returned: the counter goes up, then the wait. *)
Lemma iteration_Ok w b w1 :
  job (next_job_id (globals w)) w = (Ok b, w1) ->
  exists w' dt out,
    iteration job w = (Ok tt, w') /\
    trans w1 w' dt 1 out /\
    completions out = 0 /\
    0 <= dt <= Z.max 0 (JOB_INTERVAL (globals w1)).
Proof.
  intros Hjob. unfold iteration, try_except_Exception.
  rewrite (try_body_Ok _ _ _ Hjob).
  destruct (inter_job_wait_run (count_job w1)) as (w' & dt & out & E & T & Hc & Hdt).
  rewrite E. exists w', dt, out.
  split; [reflexivity|]. split; [|by split].
  exact (trans_seq _ _ _ _ _ _ _ _ _ (count_job_trans w1) T).
Qed.

(** The job raised something below [Exception] whose [str] returns: one
    error record, five time units, counter untouched, and the pass ends
    normally. *)
Lemma iteration_caught w e w1 msg :
  job (next_job_id (globals w)) w = (Raise e, w1) ->
  isinstance_Exception e = true ->
  str_of_exc e = Ok msg ->
  exists w' sigs,
    iteration job w = (Ok tt, w') /\
    trans w1 w' 5 0
          (LogError ("Error processing job: " +:+ msg)
             :: map handler_line sigs).
Proof.
  intros Hjob He Hstr. unfold iteration, try_except_Exception.
  rewrite (try_body_Raise _ _ _ Hjob), He.
  unfold except_clause, pure_result. erewrite bind_Ok by (rewrite Hstr; reflexivity).
  destruct (logger_error_trans ("Error processing job: " +:+ msg) w1)
    as (w2 & E2 & T2).
  destruct (time_sleep_trans 5 w2) as (w3 & E3 & T3 & _).
  erewrite bind_Ok by exact E2. rewrite E3.
  exists w3, (due 5 w2). split; [reflexivity|].
  exact (trans_seq _ _ _ _ _ _ _ _ _ T2 T3).
Qed.

(** The job raised something below [Exception] whose [str] raises: the
    handler raises before it has logged or slept, and that exception leaves
    the pass. *)
Lemma iteration_handler_raises w e w1 e' :
  job (next_job_id (globals w)) w = (Raise e, w1) ->
  isinstance_Exception e = true ->
  str_of_exc e = Raise e' ->
  iteration job w = (Raise e', w1).
Proof.
  intros Hjob He Hstr. unfold iteration, try_except_Exception.
  rewrite (try_body_Raise _ _ _ Hjob), He.
  unfold except_clause, pure_result. by erewrite bind_Raise by (rewrite Hstr; reflexivity).
Qed.

(** The job raised something outside [Exception]: it leaves the pass. *)
Lemma iteration_escapes w e w1 :
  job (next_job_id (globals w)) w = (Raise e, w1) ->
  isinstance_Exception e = false ->
  iteration job w = (Raise e, w1).
Proof.
  intros Hjob He. unfold iteration, try_except_Exception.
  by rewrite (try_body_Raise _ _ _ Hjob), He.
Qed.

(** ** The loop *)

Lemma worker_loop_stopped fuel w :
  running (globals w) = false -> worker_loop job fuel w = (Finished, w).
Proof. intros H. destruct fuel; simpl; by rewrite H. Qed.

Lemma worker_loop_step fuel w w1 :
  running (globals w) = true ->
  iteration job w = (Ok tt, w1) ->
  worker_loop job (S fuel) w = worker_loop job fuel w1.
Proof. intros Hr Hi. simpl. by rewrite Hr, Hi. Qed.


End Iteration.

(** ** The loop over the real [process_job] *)

Lemma completions_cons r l :
  completions (r :: l) = (if is_completion r then 1 else 0) + completions l.
Proof.
  unfold completions. simpl. destruct (is_completion r); simpl length; lia.
Qed.

Lemma iteration_process_job w :
  exists w' dt out,
    iteration process_job w = (Ok tt, w') /\
    trans w w' dt 1
          (LogInfo ("Processing job " +:+ next_job_id (globals w)) :: out) /\
    completions out = 1 /\
    2 <= dt.
Proof.
  destruct (process_job_run (next_job_id (globals w)) w) as (w1 & mid & E1 & T1 & Hmid).
  destruct (iteration_Ok process_job w true w1 E1) as (w' & dt & out & E & T & Hout & Hdt).
  exists w', ((if FEATURE_BETA (globals w) then 3 else 2) + dt),
    ((mid ++ [LogInfo ("Completed job " +:+ next_job_id (globals w))]) ++ out)%list.
  split; [exact E|]. split; [|split].
  - exact (trans_seq _ _ _ _ _ _ _ _ _ T1 T).
  - rewrite !completions_app, Hmid, Hout. reflexivity.
  - destruct (FEATURE_BETA (globals w)); lia.
Qed.

Lemma worker_loop_process_job fuel : forall w,
  exists r w' dt dj out,
    worker_loop process_job fuel w = (r, w') /\
    clean_end r /\
    trans w w' dt dj out /\
    completions out = dj /\
    0 <= dj <= Z.of_nat fuel /\
    0 <= dt.
Proof.
  induction fuel as [|fuel IH]; intros w.
  - exists (if running (globals w) then OutOfFuel else Finished), w, 0, 0, [].
    split; [simpl; by destruct (running (globals w))|].
    split; [by destruct (running (globals w))|].
    split; [apply trans_refl|]. split; [reflexivity|lia].
  - destruct (running (globals w)) eqn:Hr.
    + destruct (iteration_process_job w) as (w1 & dt1 & out1 & E1 & T1 & H1 & Hdt1).
      rewrite (worker_loop_step _ _ _ _ Hr E1).
      destruct (IH w1) as (r & w' & dt & dj & out & E & Hclean & T & Hout & Hdj & Hdt).
      exists r, w', (dt1 + dt), (1 + dj),
        ((LogInfo ("Processing job " +:+ next_job_id (globals w)) :: out1) ++ out)%list.
      split; [exact E|]. split; [exact Hclean|]. split; [|split].
      * exact (trans_seq _ _ _ _ _ _ _ _ _ T1 T).
      * rewrite completions_app, completions_cons, H1, Hout. reflexivity.
      * lia.
    + rewrite (worker_loop_stopped _ _ _ Hr).
      exists Finished, w, 0, 0, [].
      split; [reflexivity|]. split; [exact I|].
      split; [apply trans_refl|]. split; [reflexivity|lia].
Qed.

Lemma run_worker_run fuel w :
  exists r w' dt dj out,
    run_worker fuel w = (r, w') /\
    clean_end r /\
    trans w w' dt dj out /\
    completions out = dj /\
    0 <= dj <= Z.of_nat fuel.
Proof.
  unfold run_worker, run_worker_with.
  unfold get_globals at 1. erewrite bind_Ok by reflexivity.
  set (m1 := "Starting worker service in " +:+ ENVIRONMENT (globals w) +:+ " environment").
  set (m2 := "Job interval: " +:+ str_of_int (JOB_INTERVAL (globals w)) +:+ " seconds").
  set (m3 := "Beta features: " +:+ (if FEATURE_BETA (globals w) then "True" else "False")).
  destruct (logger_info_trans m1 w) as (w1 & E1 & T1).
  destruct (logger_info_trans m2 w1) as (w2 & E2 & T2).
  destruct (logger_info_trans m3 w2) as (w3 & E3 & T3).
  erewrite bind_Ok by exact E1. erewrite bind_Ok by exact E2. rewrite E3.
  destruct (worker_loop_process_job fuel w3)
    as (r & w4 & dt & dj & out & E & Hclean & T & Hout & Hdj & _).
  rewrite E.
  pose proof (trans_seq _ _ _ _ _ _ _ _ _ T1
                (trans_seq _ _ _ _ _ _ _ _ _ T2
                   (trans_seq _ _ _ _ _ _ _ _ _ T3 T))) as T0.
  assert (Hstart : completions ([LogInfo m1] ++ [LogInfo m2] ++ [LogInfo m3] ++ out)%list = dj).
  { rewrite !completions_app, Hout. reflexivity. }
  destruct r; [| |destruct Hclean].
  - set (m4 := "Worker stopped. Total jobs processed: "
               +:+ str_of_int (jobs_processed (globals w4))).
    destruct (logger_info_trans m4 w4) as (w5 & E5 & T5).
    rewrite E5. simpl snd.
    eexists Finished, w5, _, _, _. split; [reflexivity|]. split; [exact I|].
    split; [exact (trans_seq _ _ _ _ _ _ _ _ _ T0 T5)|].
    split; [|lia].
    rewrite completions_app, Hstart. change (completions [LogInfo m4]) with 0. lia.
  - eexists OutOfFuel, w4, _, _, _. split; [reflexivity|]. split; [exact I|].
    split; [exact T0|]. split; [exact Hstart|lia].
Qed.

(** ** The endpoints only read *)

Lemma health_reads w : exists body, health w = (Ok (body, 200), w).
Proof. eexists. reflexivity. Qed.

Lemma readiness_reads w : exists resp, readiness w = (Ok resp, w).
Proof.
  unfold readiness, bind, get_globals. destruct (ready (globals w)); eexists; reflexivity.
Qed.

Lemma metrics_reads w : exists body, metrics w = (Ok (body, 200), w).
Proof. eexists. reflexivity. Qed.

Lemma app_get_reads path h w : app_get path = Some h -> snd (h w) = w.
Proof.
  unfold app_get. intros H.
  repeat match type of H with
         | (if ?b then _ else _) = _ => destruct b
         end; inversion H; subst.
  - by destruct (health_reads w) as [? ->].
  - by destruct (readiness_reads w) as [? ->].
  - by destruct (metrics_reads w) as [? ->].
Qed.

(** ** Every operation lets the globals evolve, and nothing more *)

Lemma exec_op_evolves o w : evolves (globals w) (globals (exec_op o w)).
Proof.
  destruct o as [s|d|j| | |fuel|path]; cbn [exec_op].
  - destruct (signal_handler_trans s w) as (w' & line & -> & T & _). apply T.
  - destruct (time_sleep_trans d w) as (w' & -> & T & _). apply T.
  - destruct (process_job_run j w) as (w' & mid & -> & T & _). apply T.
  - destruct (iteration_process_job w) as (w' & dt & out & -> & T & _). apply T.
  - destruct (inter_job_wait_run w) as (w' & dt & out & -> & T & _). apply T.
  - destruct (run_worker_run fuel w) as (r & w' & dt & dj & out & -> & _ & T & _). apply T.
  - destruct (app_get path) as [h|] eqn:Hh; [|apply evolves_refl].
    rewrite (app_get_reads _ _ w Hh). apply evolves_refl.
Qed.

Lemma exec_ops_evolves ops : forall w, evolves (globals w) (globals (exec_ops ops w)).
Proof.
  induction ops as [|o ops IH]; intros w; simpl.
  - apply evolves_refl.
  - eapply evolves_trans; [apply exec_op_evolves | apply IH].
Qed.

Lemma exec_op_keeps_counter o w :
  writes_counter o = false ->
  jobs_processed (globals (exec_op o w)) = jobs_processed (globals w).
Proof.
  destruct o as [s|d|j| | |fuel|path]; cbn [exec_op]; intros Hw; try discriminate.
  - destruct (signal_handler_trans s w) as (w' & line & -> & T & _).
    cbn [snd]. rewrite (tr_jobs _ _ _ _ _ T). lia.
  - destruct (time_sleep_trans d w) as (w' & -> & T & _).
    cbn [snd]. rewrite (tr_jobs _ _ _ _ _ T). lia.
  - destruct (process_job_run j w) as (w' & mid & -> & T & _).
    cbn [snd]. rewrite (tr_jobs _ _ _ _ _ T). lia.
  - destruct (inter_job_wait_run w) as (w' & dt & out & -> & T & _).
    cbn [snd]. rewrite (tr_jobs _ _ _ _ _ T). lia.
  - destruct (app_get path) as [h|] eqn:Hh; [|reflexivity].
    by rewrite (app_get_reads _ _ w Hh).
Qed.

(** * The claims *)

Example next_job_id_first :
  next_job_id (mkGlobals false "dev" 30 0 true true 0) = "job-1".
Proof. reflexivity. Qed.

Example run_two_jobs_then_stop :
  let w := mkWorld (mkGlobals false "dev" 3 0 true true 0) 0
                   [mkSignal (15 # 2) SIGTERM] [] in
  fst (run_worker 5 w) = Finished /\
  jobs_processed (globals (snd (run_worker 5 w))) = 2 /\
  clock (snd (run_worker 5 w)) = 8.
Proof. vm_compute. auto. Qed.

(** C1.  The counter [jobs_processed] counts the successful completions:
    one pass of the loop body over [process_job] adds exactly 1; over any
    run of [run_worker] the counter grows by the number of completions the
    run logged, so that a worker started from the environment shows
    exactly N after its N-th completion; no operation other than a pass of
    the loop writes the counter; and no sequence of operations ever makes
    it smaller. *)
Theorem jobs_processed_counts_completions :
  (forall w,
      jobs_processed (globals (snd (iteration process_job w)))
      = jobs_processed (globals w) + 1) /\
  (forall fuel w,
      jobs_processed (globals (snd (run_worker fuel w))) - jobs_processed (globals w)
      = completions (log (snd (run_worker fuel w))) - completions (log w)) /\
  (forall py_int env now sigs fuel,
      match boot py_int env now sigs with
      | Ok w0 =>
          jobs_processed (globals w0) = 0 /\
          jobs_processed (globals (snd (run_worker fuel w0)))
          = completions (log (snd (run_worker fuel w0)))
      | Raise _ => True
      end) /\
  (forall o w,
      if writes_counter o then True
      else jobs_processed (globals (exec_op o w)) = jobs_processed (globals w)) /\
  (forall ops w,
      jobs_processed (globals w) <= jobs_processed (globals (exec_ops ops w))).
Proof.
  assert (Hrun : forall fuel w,
             jobs_processed (globals (snd (run_worker fuel w))) - jobs_processed (globals w)
             = completions (log (snd (run_worker fuel w))) - completions (log w)).
  { intros fuel w.
    destruct (run_worker_run fuel w) as (r & w' & dt & dj & out & -> & _ & T & Hout & _).
    cbn [snd]. rewrite (tr_jobs _ _ _ _ _ T), (tr_log _ _ _ _ _ T), completions_app. lia. }
  split; [|split; [exact Hrun|split; [|split]]].
  - intros w.
    destruct (iteration_process_job w) as (w' & dt & out & -> & T & _).
    exact (tr_jobs _ _ _ _ _ T).
  - intros py_int env now sigs fuel. unfold boot.
    destruct (load_globals py_int env now) as [g|e] eqn:Hload; [|exact I].
    assert (Hzero : jobs_processed g = 0).
    { unfold load_globals in Hload.
      destruct (py_int _); inversion Hload; reflexivity. }
    split; [exact Hzero|].
    specialize (Hrun fuel (mkWorld g now sigs [])). simpl in Hrun.
    rewrite Hzero in Hrun. change (completions []) with 0 in Hrun. lia.
  - intros o w. destruct (writes_counter o) eqn:Hw; [exact I|].
    by apply exec_op_keeps_counter.
  - intros ops w. apply (ev_jobs _ _ (exec_ops_evolves ops w)).
Qed.

(** C3.  After a termination signal has been handled, [running] is false
    and stays false under every sequence of later operations.  A second
    signal is handled without an exception and leaves the globals, the
    clock and the schedule as the first one left them; the counter is what
    it was before the first signal.  Two signals that interrupt the same
    sleep leave the globals that one leaves. *)
Theorem running_never_reverts :
  forall (s : Signum) (w : World),
    fst (signal_handler s w) = Ok tt /\
    running (globals (snd (signal_handler s w))) = false /\
    jobs_processed (globals (snd (signal_handler s w))) = jobs_processed (globals w) /\
    (forall ops,
        running (globals (exec_ops ops (snd (signal_handler s w)))) = false) /\
    (forall s2,
        fst (signal_handler s2 (snd (signal_handler s w))) = Ok tt /\
        globals (snd (signal_handler s2 (snd (signal_handler s w))))
        = globals (snd (signal_handler s w)) /\
        clock (snd (signal_handler s2 (snd (signal_handler s w))))
        = clock (snd (signal_handler s w)) /\
        pending (snd (signal_handler s2 (snd (signal_handler s w))))
        = pending (snd (signal_handler s w))) /\
    (forall t1 t2 s2,
        fst (deliver [mkSignal t1 s; mkSignal t2 s2] w) = Ok tt /\
        globals (snd (deliver [mkSignal t1 s; mkSignal t2 s2] w))
        = globals (snd (deliver [mkSignal t1 s] w))).
Proof.
  intros s w.
  split; [reflexivity|]. split; [reflexivity|]. split; [reflexivity|].
  split; [|split].
  - intros ops. apply (ev_running _ _ (exec_ops_evolves ops _)). reflexivity.
  - intros s2. repeat split.
  - intros t1 t2 s2. rewrite !deliver_eq. split; reflexivity.
Qed.

(** C5.  A call of [process_job] lasts 2 time units when [FEATURE_BETA] is
    off and 2 + 1 = 3 when it is on, whatever the job id. *)
Theorem process_job_duration :
  forall (job_id : string) (w : World),
    clock (snd (process_job job_id w)) - clock w
    = if FEATURE_BETA (globals w) then 2 + 1 else 2.
Proof.
  intros j w.
  destruct (process_job_run j w) as (w' & mid & -> & T & _).
  cbn [snd]. rewrite (tr_clock _ _ _ _ _ T).
  destruct (FEATURE_BETA (globals w)); lia.
Qed.

(** C6.  [process_job] returns [True] for every job id and either setting
    of the flag, never raising; and the id the loop calls it with is
    ["job-"] followed by the counter plus one, as the first record of the
    pass shows. *)
Theorem process_job_always_succeeds :
  (forall (job_id : string) (w : World), fst (process_job job_id w) = Ok true) /\
  (forall (w : World),
      exists rest,
        log (snd (iteration process_job w))
        = (log w
             ++ LogInfo ("Processing job " +:+ "job-"
                         +:+ str_of_int (jobs_processed (globals w) + 1))
             :: rest)%list).
Proof.
  split.
  - intros j w. by destruct (process_job_run j w) as (w' & mid & -> & _).
  - intros w.
    destruct (iteration_process_job w) as (w' & dt & out & -> & T & _).
    exists out. exact (tr_log _ _ _ _ _ T).
Qed.

(** C7.  [GET /metrics] is served by [metrics], which answers 200 with the
    six fields [service], [environment], [uptime_seconds],
    [jobs_processed], [job_interval] and [beta_enabled]; [job_interval] is
    the global [JOB_INTERVAL], which is still the value the worker started
    with after any sequence of operations; [jobs_processed] is the counter
    at the time of the call; and the world is left as it was. *)
Theorem metrics_response :
  app_get "/metrics" = Some metrics /\
  (forall w : World,
      exists body,
        metrics w = (Ok (body, 200), w) /\
        json_get "service" body = Some (JStr "worker-service") /\
        json_get "environment" body = Some (JStr (ENVIRONMENT (globals w))) /\
        json_get "uptime_seconds" body
        = Some (JSeconds (clock w - start_time (globals w))) /\
        json_get "jobs_processed" body = Some (JInt (jobs_processed (globals w))) /\
        json_get "job_interval" body = Some (JInt (JOB_INTERVAL (globals w))) /\
        json_get "beta_enabled" body = Some (JBool (FEATURE_BETA (globals w))) /\
        map fst body = ["service"; "environment"; "uptime_seconds";
                        "jobs_processed"; "job_interval"; "beta_enabled"]) /\
  (forall (ops : list Op) (w : World),
      exists body,
        fst (metrics (exec_ops ops w)) = Ok (body, 200) /\
        json_get "job_interval" body = Some (JInt (JOB_INTERVAL (globals w)))).
Proof.
  split; [reflexivity|]. split.
  - intros w. eexists. split; [reflexivity|]. repeat split.
  - intros ops w. eexists. split; [reflexivity|].
    cbn. by rewrite (ev_interval _ _ (exec_ops_evolves ops w)).
Qed.

(** ** Signals during the wait *)

Lemma due_before_true t s : due_before t s = true <-> (sig_time s < inject_Z t)%Q.
Proof.
  unfold due_before, Qltb. rewrite negb_true_iff.
  split.
  - intros H. apply Qnot_le_lt. intros Hle.
    apply Qle_bool_iff in Hle. congruence.
  - intros H. destruct (Qle_bool (inject_Z t) (sig_time s)) eqn:E; [|reflexivity].
    apply Qle_bool_iff in E. exfalso. exact (Qlt_not_le _ _ H E).
Qed.

Lemma due_before_false t s : due_before t s = false <-> (inject_Z t <= sig_time s)%Q.
Proof.
  split.
  - intros H. apply Qnot_lt_le. intros Hlt.
    apply due_before_true in Hlt. congruence.
  - intros H. destruct (due_before t s) eqn:E; [|reflexivity].
    apply due_before_true in E. exfalso. exact (Qlt_not_le _ _ E H).
Qed.

Lemma stopped_by_In s sigs g : In s sigs -> running (stopped_by sigs g) = false.
Proof. destruct sigs; [intros []|reflexivity]. Qed.

Lemma inject_Z_succ z : (inject_Z (z + 1) == inject_Z z + 1)%Q.
Proof. rewrite inject_Z_plus. reflexivity. Qed.

(** A signal that arrives while the wait has [n] seconds left ends the
    wait at the first poll after its arrival. *)
Lemma wait_loop_signal n : forall w s,
  In s (pending w) ->
  (inject_Z (clock w) <= sig_time s)%Q ->
  (sig_time s < inject_Z (clock w + Z.of_nat n))%Q ->
  running (globals (snd (wait_loop n w))) = false /\
  (inject_Z (clock (snd (wait_loop n w))) <= sig_time s + 1)%Q.
Proof.
  induction n as [|n IH]; intros w s Hin Hlo Hhi.
  - exfalso. replace (clock w + Z.of_nat 0) with (clock w) in Hhi by lia.
    exact (Qlt_not_le _ _ Hhi Hlo).
  - destruct (running (globals w)) eqn:Hr.
    + rewrite (wait_loop_running _ _ Hr).
      destruct (time_sleep_trans 1 w) as (w1 & E1 & T1 & G1 & P1).
      rewrite E1. cbn [snd].
      pose proof (tr_clock _ _ _ _ _ T1) as Hc1.
      destruct (due_before (clock w + 1) s) eqn:Hdue.
      * assert (Hstop : running (globals w1) = false).
        { rewrite G1. apply (stopped_by_In s). unfold due.
          apply List.filter_In. by split. }
        rewrite (wait_loop_stopped _ _ Hstop). cbn [snd].
        split; [exact Hstop|].
        rewrite Hc1, inject_Z_succ. lra.
      * apply due_before_false in Hdue.
        apply IH.
        -- rewrite P1. unfold not_due. apply List.filter_In. split; [exact Hin|].
           apply negb_true_iff. by apply due_before_false.
        -- by rewrite Hc1.
        -- replace (clock w1 + Z.of_nat n) with (clock w + Z.of_nat (S n)) by lia.
           exact Hhi.
    + rewrite (wait_loop_stopped _ _ Hr). cbn [snd].
      split; [exact Hr|]. lra.
Qed.

(** C2.  A termination signal that arrives during the wait between two
    jobs (at an instant from the start of the wait up to, but not
    including, its full length of [JOB_INTERVAL]) ends the wait without an
    exception, with [running] false, no later than 1 time unit after its
    arrival and never later than the full interval; the [while running]
    test that follows then ends the loop on the spot. *)
Theorem wait_exits_within_one_unit :
  forall (w : World) (s : Signal),
    In s (pending w) ->
    (inject_Z (clock w) <= sig_time s)%Q ->
    (sig_time s < inject_Z (clock w + JOB_INTERVAL (globals w)))%Q ->
    fst (inter_job_wait w) = Ok tt /\
    running (globals (snd (inter_job_wait w))) = false /\
    (inject_Z (clock (snd (inter_job_wait w))) <= sig_time s + 1)%Q /\
    clock (snd (inter_job_wait w)) <= clock w + JOB_INTERVAL (globals w) /\
    (forall job fuel,
        worker_loop job fuel (snd (inter_job_wait w))
        = (Finished, snd (inter_job_wait w))).
Proof.
  intros w s Hin Hlo Hhi.
  assert (Hpos : 0 < JOB_INTERVAL (globals w)).
  { destruct (Z.lt_ge_cases 0 (JOB_INTERVAL (globals w))) as [H|H]; [exact H|].
    exfalso. apply (Qlt_not_le _ _ Hhi).
    apply Qle_trans with (inject_Z (clock w)); [|exact Hlo].
    rewrite <- Zle_Qle. lia. }
  assert (Hn : Z.of_nat (Z.to_nat (JOB_INTERVAL (globals w))) = JOB_INTERVAL (globals w))
    by lia.
  destruct (inter_job_wait_run w) as (w' & dt & out & E & T & _ & Hdt).
  destruct (wait_loop_signal (Z.to_nat (JOB_INTERVAL (globals w))) w s Hin Hlo)
    as [Hstop Hlate].
  { by rewrite Hn. }
  rewrite <- inter_job_wait_eq in Hstop, Hlate.
  rewrite E in *. cbn [fst snd] in *.
  split; [reflexivity|]. split; [exact Hstop|]. split; [exact Hlate|]. split.
  - rewrite (tr_clock _ _ _ _ _ T). lia.
  - intros job fuel. by apply worker_loop_stopped.
Qed.

Lemma wait_exits_within_one_unit_witness :
  fst (inter_job_wait wait_example) = Ok tt /\
  running (globals (snd (inter_job_wait wait_example))) = false /\
  (inject_Z (clock (snd (inter_job_wait wait_example))) <= (7 # 2) + 1)%Q /\
  clock (snd (inter_job_wait wait_example)) <= 2 + 30 /\
  (forall job fuel,
      worker_loop job fuel (snd (inter_job_wait wait_example))
      = (Finished, snd (inter_job_wait wait_example))).
Proof.
  apply (wait_exits_within_one_unit wait_example (mkSignal (7 # 2) SIGTERM)).
  - simpl. left. reflexivity.
  - vm_compute. discriminate.
  - vm_compute. reflexivity.
Defined.

Example wait_example_ends_at_4 : clock (snd (inter_job_wait wait_example)) = 4.
Proof. reflexivity. Qed.

(** ** Exceptions in the loop *)



Lemma run_worker_with_eq job fuel w :
  run_worker_with job fuel w
  = match worker_loop job fuel (with_log (log w ++ startup_records (globals w)) w) with
    | (Finished, w2) =>
        (Finished,
         with_log (log w2 ++ [LogInfo ("Worker stopped. Total jobs processed: "
                                       +:+ str_of_int (jobs_processed (globals w2)))])
                  w2)
    | (r, w2) => (r, w2)
    end.
Proof.
  unfold run_worker_with, bind, get_globals, logger_info, with_log.
  cbn [fst snd globals clock pending log]. rewrite <- !app_assoc. reflexivity.
Qed.





(** C10.  When the job raises in some pass (and, like [process_job], does
    not itself assign the counter), the pass leaves [jobs_processed] as it
    found it, the id computed from the counter afterwards is the same id,
    and the next pass hands that same id to the job again. *)
Theorem failed_pass_keeps_counter_and_job_id :
  forall (job : string -> M bool) (w : World) (e : PyExc) (w1 : World),
    job (next_job_id (globals w)) w = (Raise e, w1) ->
    jobs_processed (globals w1) = jobs_processed (globals w) ->
    jobs_processed (globals (snd (iteration job w))) = jobs_processed (globals w) /\
    next_job_id (globals (snd (iteration job w))) = next_job_id (globals w) /\
    try_body job (snd (iteration job w))
    = (job (next_job_id (globals w)) ;;;
       modify_globals (fun g => set_jobs_processed (jobs_processed g + 1) g) ;;;
       inter_job_wait) (snd (iteration job w)).
Proof.
  intros job w e w1 Hjob Hsame.
  assert (Hj : jobs_processed (globals (snd (iteration job w)))
               = jobs_processed (globals w)).
  { destruct (isinstance_Exception e) eqn:He.
    - destruct (str_of_exc e) as [msg|e'] eqn:Hstr.
      + destruct (iteration_caught job w e w1 msg Hjob He Hstr) as (w' & sigs & -> & T).
        cbn [snd]. rewrite (tr_jobs _ _ _ _ _ T). lia.
      + by rewrite (iteration_handler_raises job w e w1 e' Hjob He Hstr).
    - by rewrite (iteration_escapes job w e w1 Hjob He). }
  assert (Hid : next_job_id (globals (snd (iteration job w))) = next_job_id (globals w)).
  { unfold next_job_id. by rewrite Hj. }
  split; [exact Hj|]. split; [exact Hid|].
  unfold try_body. unfold get_globals at 1. erewrite bind_Ok by reflexivity.
  by rewrite Hid.
Qed.

Lemma failed_pass_keeps_counter_and_job_id_witness :
  jobs_processed (globals (snd (iteration failing_job fresh_worker))) = 0 /\
  next_job_id (globals (snd (iteration failing_job fresh_worker))) = "job-1" /\
  try_body failing_job (snd (iteration failing_job fresh_worker))
  = (failing_job "job-1" ;;;
     modify_globals (fun g => set_jobs_processed (jobs_processed g + 1) g) ;;;
     inter_job_wait) (snd (iteration failing_job fresh_worker)).
Proof.
  apply (failed_pass_keeps_counter_and_job_id failing_job fresh_worker
           (mkExc (ExceptionSubclass "ValueError") "bad payload") fresh_worker).
  - reflexivity.
  - reflexivity.
Defined.

(** ** Configuration *)

Example parse_int_examples :
  parse_int "30" = Some 30 /\ parse_int " -5 " = Some (-5) /\
  parse_int "1_000" = Some 1000 /\ parse_int "+07" = Some 7 /\
  parse_int "" = None /\ parse_int "abc" = None /\ parse_int "1__0" = None /\
  parse_int "3.5" = None /\
  parse_int (String (ascii_of_nat 28) "12") = None.
Proof. repeat split. Qed.

Lemma plain_int_reads : reads_plain_literals plain_int.
Proof.
  intros s _. unfold plain_int. destruct (parse_int s); [reflexivity|].
  eexists. reflexivity.
Qed.

Lemma reads_literal py_int s n :
  reads_plain_literals py_int -> plain s = true -> parse_int s = Some n ->
  py_int s = Ok n.
Proof. intros H Hs Hp. specialize (H s Hs). by rewrite Hp in H. Qed.

Lemma reads_non_literal py_int s :
  reads_plain_literals py_int -> plain s = true -> parse_int s = None ->
  exists msg, py_int s = Raise (mkExc (ExceptionSubclass "ValueError") msg).
Proof. intros H Hs Hp. specialize (H s Hs). by rewrite Hp in H. Qed.

Lemma getenv_unset env key dflt : env !! key = None -> getenv env key dflt = dflt.
Proof. unfold getenv. by intros ->. Qed.

Lemma getenv_set env key dflt s : env !! key = Some s -> getenv env key dflt = s.
Proof. unfold getenv. by intros ->. Qed.

Lemma load_globals_set py_int env now s n :
  env !! "JOB_INTERVAL" = Some s -> py_int s = Ok n ->
  load_globals py_int env now
  = Ok (mkGlobals (String.eqb (lower (getenv env "FEATURE_BETA" "false")) "true")
                  (getenv env "ENVIRONMENT" "unknown") n now true true 0).
Proof.
  intros Hs Hint. unfold load_globals. by rewrite (getenv_set _ _ _ _ Hs), Hint.
Qed.

Example feature_beta_any_case :
  FEATURE_BETA <$> (match load_globals plain_int {["FEATURE_BETA" := "TRUE"]} 0 with
                    | Ok g => Some g
                    | Raise _ => None
                    end) = Some true.
Proof. vm_compute. reflexivity. Qed.

(** C8, as stated, fails: [JOB_INTERVAL] need not be positive.  With
    [JOB_INTERVAL=0] in the environment the module loads and the interval
    is 0; with [JOB_INTERVAL=-5] it is -5. *)
Lemma job_interval_not_checked_positive :
  (forall py_int,
      reads_plain_literals py_int ->
      load_globals py_int {["JOB_INTERVAL" := "0"]} 0
      = Ok (mkGlobals false "unknown" 0 0 true true 0) /\
      load_globals py_int {["JOB_INTERVAL" := "-5"]} 0
      = Ok (mkGlobals false "unknown" (-5) 0 true true 0)) /\
  ~ (forall py_int env now g,
        reads_plain_literals py_int ->
        load_globals py_int env now = Ok g -> 0 < JOB_INTERVAL g).
Proof.
  assert (H0 : forall py_int,
             reads_plain_literals py_int ->
             load_globals py_int {["JOB_INTERVAL" := "0"]} 0
             = Ok (mkGlobals false "unknown" 0 0 true true 0) /\
             load_globals py_int {["JOB_INTERVAL" := "-5"]} 0
             = Ok (mkGlobals false "unknown" (-5) 0 true true 0)).
  { intros py_int Hint. split.
    - rewrite (load_globals_set py_int _ 0 "0" 0); [reflexivity|reflexivity|].
      by apply reads_literal.
    - rewrite (load_globals_set py_int _ 0 "-5" (-5)); [reflexivity|reflexivity|].
      by apply reads_literal. }
  split; [exact H0|].
  intros H. destruct (H0 plain_int plain_int_reads) as [Hzero _].
  specialize (H _ _ _ _ plain_int_reads Hzero). simpl in H. lia.
Qed.

(** C8, amended.  The module-level assignments give the documented
    defaults for the variables that are unset: [FEATURE_BETA] false,
    [ENVIRONMENT] ["unknown"], [JOB_INTERVAL] 30 (and then loading
    succeeds), [PORT] 8080.  A [JOB_INTERVAL] that is set is whatever
    integer [int] reads from it; its sign is not checked, so that a plain
    literal of a positive, zero or negative number loads as that number.
    No sequence of operations of the started worker changes
    [FEATURE_BETA], [ENVIRONMENT] or [JOB_INTERVAL]. *)
Theorem configuration_defaults_and_immutability :
  forall (py_int : string -> Result Z) (env : gmap string string) (now : Z),
    reads_plain_literals py_int ->
    (env !! "JOB_INTERVAL" = None ->
     exists g, load_globals py_int env now = Ok g /\ JOB_INTERVAL g = 30) /\
    (env !! "PORT" = None -> load_port py_int env = Ok 8080) /\
    (forall s n,
        env !! "JOB_INTERVAL" = Some s -> plain s = true -> parse_int s = Some n ->
        exists g, load_globals py_int env now = Ok g /\ JOB_INTERVAL g = n) /\
    (forall g,
        load_globals py_int env now = Ok g ->
        (env !! "FEATURE_BETA" = None -> FEATURE_BETA g = false) /\
        (env !! "ENVIRONMENT" = None -> ENVIRONMENT g = "unknown") /\
        (forall s, env !! "JOB_INTERVAL" = Some s -> py_int s = Ok (JOB_INTERVAL g)) /\
        (forall sigs ops,
            FEATURE_BETA (globals (exec_ops ops (mkWorld g now sigs []))) = FEATURE_BETA g /\
            ENVIRONMENT (globals (exec_ops ops (mkWorld g now sigs []))) = ENVIRONMENT g /\
            JOB_INTERVAL (globals (exec_ops ops (mkWorld g now sigs []))) = JOB_INTERVAL g)).
Proof.
  intros py_int env now Hint. split; [|split; [|split]].
  - intros Hunset. unfold load_globals.
    rewrite (getenv_unset _ "JOB_INTERVAL" _ Hunset).
    rewrite (reads_literal py_int "30" 30 Hint) by reflexivity.
    eexists. split; reflexivity.
  - intros Hunset. unfold load_port. by rewrite Hunset.
  - intros s n Hset Hplain Hparse.
    rewrite (load_globals_set py_int env now s n Hset)
      by (by apply reads_literal).
    eexists. split; reflexivity.
  - intros g Hload. unfold load_globals in Hload.
    destruct (py_int (getenv env "JOB_INTERVAL" "30")) as [n|e] eqn:Hn; [|discriminate].
    inversion Hload; subst g; clear Hload. cbn [FEATURE_BETA ENVIRONMENT JOB_INTERVAL].
    split; [|split; [|split]].
    + intros Hunset. by rewrite (getenv_unset _ _ _ Hunset).
    + intros Hunset. by rewrite (getenv_unset _ _ _ Hunset).
    + intros s Hset. by rewrite (getenv_set _ _ _ _ Hset) in Hn.
    + intros sigs ops.
      pose proof (exec_ops_evolves ops
                    (mkWorld (mkGlobals
                                (String.eqb (lower (getenv env "FEATURE_BETA" "false")) "true")
                                (getenv env "ENVIRONMENT" "unknown") n now true true 0)
                             now sigs [])) as Hev.
      split; [apply (ev_beta _ _ Hev)|]. split; [apply (ev_environment _ _ Hev)|].
      apply (ev_interval _ _ Hev).
Qed.

Lemma configuration_defaults_and_immutability_witness :
  (exists g, load_globals plain_int ∅ 7 = Ok g /\ JOB_INTERVAL g = 30) /\
  load_port plain_int ∅ = Ok 8080 /\
  (exists g, load_globals plain_int {["JOB_INTERVAL" := "-5"]} 7 = Ok g
             /\ JOB_INTERVAL g = -5) /\
  FEATURE_BETA (mkGlobals false "unknown" 30 7 true true 0) = false /\
  ENVIRONMENT (mkGlobals false "unknown" 30 7 true true 0) = "unknown" /\
  plain_int "45" = Ok 45.
Proof.
  pose proof (configuration_defaults_and_immutability plain_int ∅ 7 plain_int_reads)
    as (Hji & Hport & _ & Hg).
  pose proof (configuration_defaults_and_immutability
                plain_int {["JOB_INTERVAL" := "-5"]} 7 plain_int_reads)
    as (_ & _ & Hneg & _).
  pose proof (configuration_defaults_and_immutability
                plain_int {["JOB_INTERVAL" := "45"]} 7 plain_int_reads)
    as (_ & _ & _ & Hg').
  split; [apply Hji; reflexivity|].
  split; [apply Hport; reflexivity|].
  split; [apply (Hneg "-5"); reflexivity|].
  destruct (Hg (mkGlobals false "unknown" 30 7 true true 0)) as (Hb & He & _ & _);
    [reflexivity|].
  split; [apply Hb; reflexivity|].
  split; [apply He; reflexivity|].
  destruct (Hg' (mkGlobals false "unknown" 45 7 true true 0)) as (_ & _ & Hs & _);
    [vm_compute; reflexivity|].
  apply (Hs "45"). vm_compute. reflexivity.
Defined.

(** * Further properties of the worker *)

(** ** The probes *)

(** X1.  The probes do not follow the loop.  For a worker started from the
    environment, after any sequence of operations (signals included),
    [GET /health] answers 200 with status ["healthy"] and [GET /ready]
    answers 200 with status ["ready"], and neither changes the world. *)
Theorem probes_ignore_shutdown :
  forall (py_int : string -> Result Z) (env : gmap string string) (now : Z)
         (sigs : list Signal) (w0 : World) (ops : list Op),
    boot py_int env now sigs = Ok w0 ->
    (exists body,
        health (exec_ops ops w0) = (Ok (body, 200), exec_ops ops w0) /\
        json_get "status" body = Some (JStr "healthy") /\
        json_get "service" body = Some (JStr "worker-service")) /\
    (exists body,
        readiness (exec_ops ops w0) = (Ok (body, 200), exec_ops ops w0) /\
        json_get "status" body = Some (JStr "ready") /\
        json_get "service" body = Some (JStr "worker-service")).
Proof.
  intros py_int env now sigs w0 ops Hboot.
  split; [eexists; split; [reflexivity|split; reflexivity]|].
  assert (Hready : ready (globals w0) = true).
  { unfold boot, load_globals in Hboot.
    destruct (py_int _); inversion Hboot; reflexivity. }
  assert (Hready' : ready (globals (exec_ops ops w0)) = true).
  { rewrite (ev_ready _ _ (exec_ops_evolves ops w0)). exact Hready. }
  unfold readiness, bind, get_globals. rewrite Hready'.
  eexists. split; [reflexivity|split; reflexivity].
Qed.

Lemma probes_ignore_shutdown_witness :
  exists body,
    readiness (exec_ops [OpSignal SIGTERM; OpRunWorker 3]
                        (mkWorld (mkGlobals false "unknown" 30 7 true true 0) 7 [] []))
    = (Ok (body, 200),
       exec_ops [OpSignal SIGTERM; OpRunWorker 3]
                (mkWorld (mkGlobals false "unknown" 30 7 true true 0) 7 [] [])) /\
    json_get "status" body = Some (JStr "ready") /\
    json_get "service" body = Some (JStr "worker-service").
Proof.
  apply (probes_ignore_shutdown plain_int ∅ 7 [] _ [OpSignal SIGTERM; OpRunWorker 3]).
  reflexivity.
Defined.

(** X2.  Serving [GET] requests, whatever the paths and however many,
    leaves the world exactly as it was; a path that is not one of the
    three routes has no handler. *)
Theorem get_requests_change_nothing :
  (forall (paths : list string) (w : World),
      exec_ops (map OpGet paths) w = w) /\
  (forall path,
      app_get path = None <->
      path <> "/health" /\ path <> "/ready" /\ path <> "/metrics").
Proof.
  split.
  - intros paths. induction paths as [|p paths IH]; intros w; [reflexivity|].
    change (exec_ops (map OpGet (p :: paths)) w)
      with (exec_ops (map OpGet paths) (exec_op (OpGet p) w)).
    assert (Hp : exec_op (OpGet p) w = w).
    { cbn [exec_op]. destruct (app_get p) as [h|] eqn:Hh; [|reflexivity].
      apply (app_get_reads _ _ _ Hh). }
    rewrite Hp. apply IH.
  - intros path. unfold app_get.
    destruct (String.eqb_spec path "/health") as [->|H1].
    { split; [discriminate|]. intros (H & _). by destruct H. }
    destruct (String.eqb_spec path "/ready") as [->|H2].
    { split; [discriminate|]. intros (_ & H & _). by destruct H. }
    destruct (String.eqb_spec path "/metrics") as [->|H3].
    { split; [discriminate|]. intros (_ & _ & H). by destruct H. }
    split; auto.
Qed.

(** ** [run_worker] at its edges *)

(** X3.  Called on a worker whose [running] flag is already false,
    [run_worker] does no job whatever the job function: it ends normally
    with any fuel, lets no time pass, leaves globals and schedule as they
    were, and writes only its three start-up records and the final
    summary.  In particular it does not set [running] back to true. *)
Theorem run_worker_when_stopped :
  forall (job : string -> M bool) (fuel : nat) (w : World),
    running (globals w) = false ->
    run_worker_with job fuel w
    = (Finished,
       mkWorld (globals w) (clock w) (pending w)
               (log w ++ idle_run_records (globals w))).
Proof.
  intros job fuel [g c p l] Hr. simpl in Hr.
  unfold run_worker_with, bind, get_globals, logger_info, with_log. simpl.
  rewrite worker_loop_stopped by exact Hr. simpl.
  by rewrite <- !app_assoc.
Qed.

Lemma run_worker_when_stopped_witness :
  run_worker_with failing_job 0 stopped_worker
  = (Finished,
     mkWorld (globals stopped_worker) 100 []
             (idle_run_records (globals stopped_worker))).
Proof.
  apply (run_worker_when_stopped failing_job 0 stopped_worker). reflexivity.
Defined.

(** X4.  When [run_worker] ends normally, the last record of the log is the
    summary, and the number in it is the final value of the counter. *)
Theorem final_summary_reports_counter :
  forall (job : string -> M bool) (fuel : nat) (w : World),
    fst (run_worker_with job fuel w) = Finished ->
    exists l,
      log (snd (run_worker_with job fuel w))
      = (l ++ [LogInfo ("Worker stopped. Total jobs processed: "
                        +:+ str_of_int
                              (jobs_processed
                                 (globals (snd (run_worker_with job fuel w)))))])%list.
Proof.
  intros job fuel w Hfin.
  destruct (run_worker_with job fuel w) as [r w'] eqn:E.
  cbn [fst snd] in *. subst r.
  unfold run_worker_with in E.
  unfold get_globals at 1 in E. erewrite bind_Ok in E by reflexivity.
  set (m1 := "Starting worker service in " +:+ _ +:+ " environment") in E.
  set (m2 := "Job interval: " +:+ _ +:+ " seconds") in E.
  set (m3 := "Beta features: " +:+ _) in E.
  destruct (logger_info_trans m1 w) as (w1 & E1 & _).
  destruct (logger_info_trans m2 w1) as (w2 & E2 & _).
  destruct (logger_info_trans m3 w2) as (w3 & E3 & _).
  erewrite bind_Ok in E by exact E1.
  erewrite bind_Ok in E by exact E2. rewrite E3 in E.
  destruct (worker_loop job fuel w3) as [[| |e] w4]; inversion E; subst w'.
  exists (log w4). reflexivity.
Qed.

Lemma final_summary_reports_counter_witness :
  exists l,
    log (snd (run_worker_with process_job 5 wait_example))
    = (l ++ [LogInfo ("Worker stopped. Total jobs processed: "
                      +:+ str_of_int
                            (jobs_processed
                               (globals (snd (run_worker_with process_job 5
                                                              wait_example)))))])%list.
Proof.
  apply (final_summary_reports_counter process_job 5 wait_example).
  vm_compute. reflexivity.
Defined.

(** ** Reading the environment *)

Lemma lower_false_not_true : lower "false" <> "true".
Proof. discriminate. Qed.

(** X5.  In a worker that loaded, [FEATURE_BETA] is on exactly when the
    variable is set and its value spells [true] in some mix of letter
    cases.  Unset, or set to anything else (["1"], ["yes"], ["on"]), it is
    off. *)
Theorem feature_beta_iff_spelled_true :
  forall (py_int : string -> Result Z) (env : gmap string string) (now : Z)
         (g : Globals),
    load_globals py_int env now = Ok g ->
    (FEATURE_BETA g = true <->
     exists s, env !! "FEATURE_BETA" = Some s /\ lower s = "true").
Proof.
  intros py_int env now g Hload. unfold load_globals in Hload.
  destruct (py_int _) as [n|e]; [|discriminate].
  inversion Hload; subst g; clear Hload. cbn [FEATURE_BETA].
  rewrite String.eqb_eq. unfold getenv.
  destruct (env !! "FEATURE_BETA") as [s|] eqn:Hs; simpl.
  - split; [intros H; by exists s|]. intros (s' & Hs' & H). by inversion Hs'; subst.
  - split; [intros H; by destruct lower_false_not_true|].
    intros (s' & Hs' & _). discriminate.
Qed.

Lemma feature_beta_iff_spelled_true_witness :
  (FEATURE_BETA (mkGlobals true "unknown" 30 0 true true 0) = true <->
   exists s, ({["FEATURE_BETA" := "True"]} : gmap string string) !! "FEATURE_BETA"
             = Some s /\ lower s = "true") /\
  (FEATURE_BETA (mkGlobals false "unknown" 30 0 true true 0) = true <->
   exists s, ({["FEATURE_BETA" := "1"]} : gmap string string) !! "FEATURE_BETA"
             = Some s /\ lower s = "true").
Proof.
  split.
  - apply (feature_beta_iff_spelled_true plain_int {["FEATURE_BETA" := "True"]} 0).
    vm_compute. reflexivity.
  - apply (feature_beta_iff_spelled_true plain_int {["FEATURE_BETA" := "1"]} 0).
    vm_compute. reflexivity.
Defined.

(** X6.  Loading the module fails in one way only: [JOB_INTERVAL] is set
    and [int] raises on its value; the exception is then the one [int]
    raised, and start-up fails with it.  An unset [JOB_INTERVAL] never
    makes it fail, and no value of [FEATURE_BETA] or [ENVIRONMENT] does.
    In particular a plain value that is not a decimal literal (the empty
    string, ["30s"], ["1.5"]) makes it fail with [ValueError]. *)
Theorem load_fails_only_on_job_interval :
  forall (py_int : string -> Result Z) (env : gmap string string) (now : Z),
    reads_plain_literals py_int ->
    (forall e,
        load_globals py_int env now = Raise e ->
        exists s, env !! "JOB_INTERVAL" = Some s /\ py_int s = Raise e) /\
    (forall s e,
        env !! "JOB_INTERVAL" = Some s -> py_int s = Raise e ->
        load_globals py_int env now = Raise e /\ boot py_int env now [] = Raise e) /\
    (forall s,
        env !! "JOB_INTERVAL" = Some s -> plain s = true -> parse_int s = None ->
        exists msg,
          load_globals py_int env now
          = Raise (mkExc (ExceptionSubclass "ValueError") msg)).
Proof.
  intros py_int env now Hint.
  assert (Hraise : forall s e,
             env !! "JOB_INTERVAL" = Some s -> py_int s = Raise e ->
             load_globals py_int env now = Raise e).
  { intros s e Hs He. unfold load_globals. by rewrite (getenv_set _ _ _ _ Hs), He. }
  split; [|split].
  - intros e Hload. unfold load_globals in Hload.
    destruct (env !! "JOB_INTERVAL") as [s|] eqn:Hs.
    + rewrite (getenv_set _ _ _ _ Hs) in Hload. exists s. split; [reflexivity|].
      destruct (py_int s); [discriminate|]. by inversion Hload.
    + rewrite (getenv_unset _ _ _ Hs) in Hload.
      rewrite (reads_literal py_int "30" 30 Hint) in Hload by reflexivity.
      discriminate.
  - intros s e Hs He. split; [by apply (Hraise s)|].
    unfold boot. by rewrite (Hraise s e Hs He).
  - intros s Hs Hplain Hparse.
    destruct (reads_non_literal py_int s Hint Hplain Hparse) as [msg Hmsg].
    exists msg. by apply (Hraise s).
Qed.

Lemma load_fails_only_on_job_interval_witness :
  (exists msg, load_globals plain_int {["JOB_INTERVAL" := ""]} 0
               = Raise (mkExc (ExceptionSubclass "ValueError") msg)) /\
  (exists msg, load_globals plain_int {["JOB_INTERVAL" := "30s"]} 0
               = Raise (mkExc (ExceptionSubclass "ValueError") msg)).
Proof.
  split.
  - apply (proj2 (proj2 (load_fails_only_on_job_interval
                           plain_int {["JOB_INTERVAL" := ""]} 0 plain_int_reads)) "");
      reflexivity.
  - apply (proj2 (proj2 (load_fails_only_on_job_interval
                           plain_int {["JOB_INTERVAL" := "30s"]} 0 plain_int_reads)) "30s");
      reflexivity.
Defined.

(** ** Job ids *)

Lemma to_int_not_nil z :
  Z.to_int z <> Decimal.Pos Decimal.Nil /\ Z.to_int z <> Decimal.Neg Decimal.Nil.
Proof.
  pose proof (DecimalZ.to_of (Z.to_int z)) as H.
  rewrite DecimalZ.of_to in H.
  split; intros E; rewrite E in H; discriminate.
Qed.

Lemma str_of_int_inj a b : str_of_int a = str_of_int b -> a = b.
Proof.
  unfold str_of_int. intros H.
  destruct (to_int_not_nil a) as [Ha1 Ha2], (to_int_not_nil b) as [Hb1 Hb2].
  pose proof (NilZero.isi _ Ha1 Ha2) as Ia.
  pose proof (NilZero.isi _ Hb1 Hb2) as Ib.
  rewrite H in Ia. rewrite Ia in Ib. inversion Ib as [E].
  rewrite <- (DecimalZ.of_to a), <- (DecimalZ.of_to b). by rewrite E.
Qed.

(** X7.  Job ids name counter values one to one: two ids are equal only
    if the counters they were made from are equal.  So the id of the pass
    after a successful pass over [process_job] differs from the id that
    pass used, and no id is handed out again once its job has completed. *)
Theorem job_ids_are_unique :
  (forall g g' : Globals,
      next_job_id g = next_job_id g' <-> jobs_processed g = jobs_processed g') /\
  (forall (w : World) (ops : list Op),
      next_job_id (globals (exec_ops ops (snd (iteration process_job w))))
      <> next_job_id (globals w)).
Proof.
  assert (Hinj : forall g g' : Globals,
             next_job_id g = next_job_id g' <-> jobs_processed g = jobs_processed g').
  { intros g g'. unfold next_job_id. split; [|by intros ->].
    intros H.
    change ("job-" +:+ ?x) with (String "j" (String "o" (String "b" (String "-" x)))) in H.
    inversion H as [E]. apply str_of_int_inj in E. lia. }
  split; [exact Hinj|].
  intros w ops H. apply Hinj in H.
  destruct (iteration_process_job w) as (w' & dt & out & E & T & _).
  rewrite E in H. cbn [snd] in H.
  pose proof (ev_jobs _ _ (exec_ops_evolves ops w')) as Hge.
  pose proof (tr_jobs _ _ _ _ _ T) as Hj. lia.
Qed.

(** ** Equations for the job, the pass and the run *)

Lemma time_sleep_clock d w : clock (snd (time_sleep d w)) = clock w + d.
Proof. by rewrite time_sleep_eq. Qed.

Lemma time_sleep_quiet d w :
  pending w = [] ->
  time_sleep d w = (Ok tt, mkWorld (globals w) (clock w + d) [] (log w)).
Proof.
  intros Hp. rewrite time_sleep_eq. unfold due, not_due. rewrite Hp. simpl.
  by rewrite app_nil_r.
Qed.

(** What a sleep does with a signal that is on the schedule: handle it if
    it arrives before the end of the sleep, keep it otherwise. *)
Lemma time_sleep_signal d w s :
  In s (pending w) ->
  ((sig_time s < inject_Z (clock w + d))%Q /\
   running (globals (snd (time_sleep d w))) = false) \/
  ((inject_Z (clock w + d) <= sig_time s)%Q /\
   In s (pending (snd (time_sleep d w)))).
Proof.
  intros Hin. rewrite time_sleep_eq. cbn [snd globals pending].
  destruct (due_before (clock w + d) s) eqn:Hdue.
  - left. split; [by apply due_before_true|].
    apply (stopped_by_In s). apply List.filter_In. by split.
  - right. split; [by apply due_before_false|].
    apply List.filter_In. split; [exact Hin|]. by rewrite Hdue.
Qed.

Lemma time_sleep_keeps_stopped d w :
  running (globals w) = false -> running (globals (snd (time_sleep d w))) = false.
Proof.
  intros H. destruct (time_sleep_trans d w) as (w' & -> & T & _).
  exact (ev_running _ _ (tr_evolves _ _ _ _ _ T) H).
Qed.

Lemma process_job_eq j w :
  process_job j w =
  (Ok true,
   let w2 := snd (time_sleep 2 (with_log (log w ++ [LogInfo ("Processing job " +:+ j)]) w)) in
   let w4 := if FEATURE_BETA (globals w)
             then snd (time_sleep 1
                         (with_log (log w2 ++ [LogInfo ("Job " +:+ j
                                                        +:+ " - Beta processing enabled")])
                                   w2))
             else w2 in
   with_log (log w4 ++ [LogInfo ("Completed job " +:+ j)]) w4).
Proof.
  unfold process_job, bind, logger_info, get_globals, ret.
  rewrite time_sleep_eq. cbn [snd globals]. rewrite stopped_by_beta. cbn [with_log globals].
  destruct (FEATURE_BETA (globals w)); [|reflexivity].
  rewrite time_sleep_eq. reflexivity.
Qed.

Lemma iteration_process_job_eq w :
  iteration process_job w
  = (Ok tt,
     snd (inter_job_wait
            (count_job (snd (process_job (next_job_id (globals w)) w))))).
Proof.
  unfold iteration, try_except_Exception.
  rewrite (try_body_Ok process_job w true (snd (process_job (next_job_id (globals w)) w))).
  - destruct (inter_job_wait_run
                (count_job (snd (process_job (next_job_id (globals w)) w))))
      as (w' & dt & out & -> & _).
    reflexivity.
  - by rewrite process_job_eq.
Qed.

(** The job and a signal on the schedule: the job lasts its full
    duration; the signal is handled in it if it arrives before its end,
    and is still on the schedule otherwise. *)
Lemma process_job_signal j w s :
  In s (pending w) ->
  clock (snd (process_job j w)) = clock w + job_duration (globals w) /\
  (((sig_time s < inject_Z (clock w + job_duration (globals w)))%Q /\
    running (globals (snd (process_job j w))) = false) \/
   ((inject_Z (clock w + job_duration (globals w)) <= sig_time s)%Q /\
    In s (pending (snd (process_job j w))))).
Proof.
  intros Hin. rewrite process_job_eq. cbn [snd]. unfold job_duration.
  set (w1 := with_log (log w ++ [LogInfo ("Processing job " +:+ j)]) w).
  assert (Hin1 : In s (pending w1)) by exact Hin.
  pose proof (time_sleep_clock 2 w1) as Hc2. change (clock w1) with (clock w) in Hc2.
  destruct (FEATURE_BETA (globals w)).
  - set (w2 := snd (time_sleep 2 w1)) in *.
    set (w3 := with_log (log w2 ++ [LogInfo ("Job " +:+ j +:+ " - Beta processing enabled")]) w2).
    pose proof (time_sleep_clock 1 w3) as Hc3. change (clock w3) with (clock w2) in Hc3.
    cbn [with_log clock globals pending].
    split; [lia|].
    destruct (time_sleep_signal 2 w1 s Hin1) as [[Hlt Hstop]|[Hge Hin2]].
    + left. split.
      * change (clock w1) with (clock w) in Hlt.
        apply Qlt_le_trans with (inject_Z (clock w + 2)); [exact Hlt|].
        rewrite <- Zle_Qle. lia.
      * apply time_sleep_keeps_stopped. exact Hstop.
    + change (clock w1) with (clock w) in Hge.
      destruct (time_sleep_signal 1 w3 s Hin2) as [[Hlt Hstop]|[Hge3 Hin3]].
      * left. split; [|exact Hstop].
        change (clock w3) with (clock w2) in Hlt.
        replace (clock w + 3) with (clock w2 + 1) by lia. exact Hlt.
      * right. split; [|exact Hin3].
        change (clock w3) with (clock w2) in Hge3.
        replace (clock w + 3) with (clock w2 + 1) by lia. exact Hge3.
  - cbn [with_log clock globals pending].
    split; [exact Hc2|].
    destruct (time_sleep_signal 2 w1 s Hin1) as [[Hlt Hstop]|[Hge Hin2]].
    + left. by split.
    + right. by split.
Qed.

(** ** Signals and the loop *)

Lemma count_job_running w : running (globals (count_job w)) = running (globals w).
Proof. reflexivity. Qed.

(** X8.  A signal that arrives while a job is being processed does not cut
    the job short: the job runs to its end and is counted, the wait that
    would follow is skipped altogether, and the loop ends there. *)
Theorem in_flight_job_completes_then_loop_ends :
  forall (w : World) (s : Signal),
    running (globals w) = true ->
    In s (pending w) ->
    (sig_time s < inject_Z (clock w + job_duration (globals w)))%Q ->
    exists w',
      iteration process_job w = (Ok tt, w') /\
      clock w' = clock w + job_duration (globals w) /\
      jobs_processed (globals w') = jobs_processed (globals w) + 1 /\
      running (globals w') = false /\
      (forall fuel, worker_loop process_job (S fuel) w = (Finished, w')).
Proof.
  intros w s Hr Hin Hlt.
  rewrite iteration_process_job_eq.
  destruct (process_job_signal (next_job_id (globals w)) w s Hin) as [Hc Hcase].
  destruct (process_job_run (next_job_id (globals w)) w) as (wj & mid & E & T & _).
  rewrite E in *. cbn [snd] in *.
  assert (Hstop : running (globals wj) = false).
  { destruct Hcase as [[_ H]|[Hge _]]; [exact H|].
    exfalso. exact (Qlt_not_le _ _ Hlt Hge). }
  rewrite inter_job_wait_eq, wait_loop_stopped by exact Hstop. cbn [snd].
  exists (count_job wj). split; [reflexivity|]. split; [exact Hc|].
  split; [simpl; rewrite (tr_jobs _ _ _ _ _ T); lia|]. split; [exact Hstop|].
  intros fuel.
  rewrite (worker_loop_step process_job fuel w (count_job wj) Hr).
  - by apply worker_loop_stopped.
  - rewrite iteration_process_job_eq, E. cbn [snd].
    by rewrite inter_job_wait_eq, wait_loop_stopped.
Qed.

Lemma in_flight_job_completes_then_loop_ends_witness :
  exists w',
    iteration process_job wait_example = (Ok tt, w') /\
    clock w' = 2 + 2 /\
    jobs_processed (globals w') = 1 + 1 /\
    running (globals w') = false /\
    (forall fuel, worker_loop process_job (S fuel) wait_example = (Finished, w')).
Proof.
  apply (in_flight_job_completes_then_loop_ends wait_example (mkSignal (7 # 2) SIGTERM)).
  - reflexivity.
  - simpl. left. reflexivity.
  - vm_compute. reflexivity.
Defined.

(** The wait and a signal on the schedule: either the wait has stopped the
    worker at most one unit after the arrival, or the signal is still to
    come. *)
Lemma wait_loop_tracks n : forall w s,
  In s (pending w) ->
  (inject_Z (clock w) <= sig_time s)%Q ->
  (running (globals (snd (wait_loop n w))) = false /\
   (inject_Z (clock (snd (wait_loop n w))) <= sig_time s + 1)%Q) \/
  (In s (pending (snd (wait_loop n w))) /\
   (inject_Z (clock (snd (wait_loop n w))) <= sig_time s)%Q).
Proof.
  induction n as [|n IH]; intros w s Hin Hle.
  - right. by split.
  - destruct (running (globals w)) eqn:Hr.
    + rewrite (wait_loop_running _ _ Hr).
      pose proof (time_sleep_clock 1 w) as Hc.
      destruct (time_sleep_signal 1 w s Hin) as [[Hlt Hstop]|[Hge Hin1]].
      * left. rewrite (wait_loop_stopped _ _ Hstop). cbn [snd].
        split; [exact Hstop|]. rewrite Hc, inject_Z_succ. lra.
      * apply IH; [exact Hin1|]. by rewrite Hc.
    + rewrite (wait_loop_stopped _ _ Hr). right. by split.
Qed.

(** One pass and a signal on the schedule. *)
Lemma iteration_tracks w s :
  In s (pending w) ->
  (inject_Z (clock w) <= sig_time s)%Q ->
  clock w + 2 <= clock (snd (iteration process_job w)) /\
  FEATURE_BETA (globals (snd (iteration process_job w))) = FEATURE_BETA (globals w) /\
  ((running (globals (snd (iteration process_job w))) = false /\
    (inject_Z (clock (snd (iteration process_job w)))
     <= sig_time s + inject_Z (job_duration (globals w)))%Q) \/
   (In s (pending (snd (iteration process_job w))) /\
    (inject_Z (clock (snd (iteration process_job w))) <= sig_time s)%Q)).
Proof.
  intros Hin Hle.
  destruct (iteration_process_job w) as (w' & dt & out & E & T & _ & Hdt).
  split; [rewrite E; cbn [snd]; rewrite (tr_clock _ _ _ _ _ T); lia|].
  split; [rewrite E; exact (ev_beta _ _ (tr_evolves _ _ _ _ _ T))|].
  clear E T Hdt. rewrite iteration_process_job_eq. cbn [snd].
  destruct (process_job_signal (next_job_id (globals w)) w s Hin) as [Hc Hcase].
  set (wj := snd (process_job (next_job_id (globals w)) w)) in *.
  assert (Hd : 1 <= job_duration (globals w))
    by (unfold job_duration; destruct (FEATURE_BETA (globals w)); lia).
  assert (HdQ : (1 <= inject_Z (job_duration (globals w)))%Q)
    by (change 1%Q with (inject_Z 1); rewrite <- Zle_Qle; exact Hd).
  rewrite inter_job_wait_eq.
  destruct Hcase as [[Hlt Hstop]|[Hge Hinj]].
  - rewrite wait_loop_stopped by exact Hstop. cbn [snd].
    left. split; [exact Hstop|].
    change (clock (count_job wj)) with (clock wj). rewrite Hc, inject_Z_plus. lra.
  - destruct (wait_loop_tracks (Z.to_nat (JOB_INTERVAL (globals (count_job wj))))
                               (count_job wj) s Hinj)
      as [[Hstop Hlate]|[Hin' Hle']].
    + change (clock (count_job wj)) with (clock wj). by rewrite Hc.
    + left. split; [exact Hstop|]. lra.
    + right. by split.
Qed.

Lemma worker_loop_stops_after_signal fuel : forall w s,
  In s (pending w) ->
  (inject_Z (clock w) <= sig_time s)%Q ->
  (sig_time s < inject_Z (clock w + 2 * Z.of_nat fuel))%Q ->
  exists w',
    worker_loop process_job fuel w = (Finished, w') /\
    running (globals w') = false /\
    (inject_Z (clock w') <= sig_time s + inject_Z (job_duration (globals w)))%Q.
Proof.
  induction fuel as [|fuel IH]; intros w s Hin Hle Hlt.
  - exfalso. replace (clock w + 2 * Z.of_nat 0) with (clock w) in Hlt by lia.
    exact (Qlt_not_le _ _ Hlt Hle).
  - assert (HdQ : (0 <= inject_Z (job_duration (globals w)))%Q).
    { change 0%Q with (inject_Z 0). rewrite <- Zle_Qle.
      unfold job_duration. destruct (FEATURE_BETA (globals w)); lia. }
    destruct (running (globals w)) eqn:Hr.
    + destruct (iteration_process_job w) as (w1 & dt & out & E & _).
      rewrite (worker_loop_step _ _ _ _ Hr E).
      destruct (iteration_tracks w s Hin Hle) as (Hadv & Hbeta & Hcase).
      rewrite E in Hadv, Hbeta, Hcase. cbn [snd] in *.
      destruct Hcase as [[Hstop Hlate]|[Hin1 Hle1]].
      * exists w1. split; [by apply worker_loop_stopped|]. by split.
      * destruct (IH w1 s Hin1 Hle1) as (w' & Hloop & Hstop & Hlate).
        { apply Qlt_le_trans with (inject_Z (clock w + 2 * Z.of_nat (S fuel)));
            [exact Hlt|].
          rewrite <- Zle_Qle. lia. }
        exists w'. split; [exact Hloop|]. split; [exact Hstop|].
        unfold job_duration in *. by rewrite Hbeta in Hlate.
    + exists w. split; [by apply worker_loop_stopped|]. split; [exact Hr|]. lra.
Qed.

(** X9.  Shutdown is bounded.  If a termination signal is due at some
    instant from now on, [run_worker] ends normally (given fuel for the
    passes that fit before that instant), with [running] false, no later
    than one job duration (2 time units, 3 with the beta flag) after the
    signal arrived. *)
Theorem shutdown_is_bounded :
  forall (fuel : nat) (w : World) (s : Signal),
    In s (pending w) ->
    (inject_Z (clock w) <= sig_time s)%Q ->
    (sig_time s < inject_Z (clock w + 2 * Z.of_nat fuel))%Q ->
    exists w',
      run_worker fuel w = (Finished, w') /\
      running (globals w') = false /\
      (inject_Z (clock w') <= sig_time s + inject_Z (job_duration (globals w)))%Q.
Proof.
  intros fuel w s Hin Hle Hlt.
  unfold run_worker. rewrite run_worker_with_eq.
  destruct (worker_loop_stops_after_signal
              fuel (with_log (log w ++ startup_records (globals w)) w) s Hin Hle Hlt)
    as (w' & -> & Hstop & Hlate).
  eexists. split; [reflexivity|]. split; [exact Hstop|exact Hlate].
Qed.

Lemma shutdown_is_bounded_witness :
  exists w',
    run_worker 1 wait_example = (Finished, w') /\
    running (globals w') = false /\
    (inject_Z (clock w') <= (7 # 2) + inject_Z 2)%Q.
Proof.
  apply (shutdown_is_bounded 1 wait_example (mkSignal (7 # 2) SIGTERM)).
  - simpl. left. reflexivity.
  - vm_compute. discriminate.
  - vm_compute. reflexivity.
Defined.

(** ** The loop left alone *)

Lemma process_job_quiet j w :
  pending w = [] ->
  globals (snd (process_job j w)) = globals w /\
  pending (snd (process_job j w)) = [] /\
  clock (snd (process_job j w)) = clock w + job_duration (globals w).
Proof.
  intros Hp. rewrite process_job_eq. cbn [snd]. unfold job_duration.
  rewrite (time_sleep_quiet 2 (with_log (log w ++ [LogInfo ("Processing job " +:+ j)]) w))
    by exact Hp.
  cbn [snd log].
  destruct (FEATURE_BETA (globals w)).
  - rewrite time_sleep_quiet by reflexivity. cbn. repeat split. lia.
  - cbn. repeat split.
Qed.

Lemma wait_loop_quiet n : forall w,
  pending w = [] ->
  running (globals w) = true ->
  wait_loop n w = (Ok tt, mkWorld (globals w) (clock w + Z.of_nat n) [] (log w)).
Proof.
  induction n as [|n IH]; intros [g c p l] Hp Hr; simpl in Hp, Hr; subst p.
  - unfold wait_loop, ret. cbn. by rewrite Z.add_0_r.
  - rewrite (wait_loop_running n (mkWorld g c [] l) Hr).
    rewrite time_sleep_quiet by reflexivity.
    cbn [snd globals clock log]. rewrite IH by (try reflexivity; exact Hr).
    cbn [globals clock log].
    replace (c + 1 + Z.of_nat n) with (c + Z.of_nat (S n)) by lia. reflexivity.
Qed.

Lemma iteration_quiet w :
  pending w = [] ->
  running (globals w) = true ->
  globals (snd (iteration process_job w))
  = set_jobs_processed (jobs_processed (globals w) + 1) (globals w) /\
  pending (snd (iteration process_job w)) = [] /\
  clock (snd (iteration process_job w))
  = clock w + job_duration (globals w) + Z.max 0 (JOB_INTERVAL (globals w)).
Proof.
  intros Hp Hr. rewrite iteration_process_job_eq. cbn [snd].
  destruct (process_job_quiet (next_job_id (globals w)) w Hp) as (Hg & Hp' & Hc).
  set (wj := snd (process_job (next_job_id (globals w)) w)) in *.
  rewrite inter_job_wait_eq, wait_loop_quiet.
  - cbn. rewrite Hg, Hc. repeat split. cbn. lia.
  - exact Hp'.
  - cbn. by rewrite Hg.
Qed.

(** X10.  Left alone, the loop does not stop.  With no signal on the
    schedule and [running] true, [n] passes are [n] completed jobs: the
    fuel runs out with [running] still true, the counter [n] higher, and
    the clock advanced by [n] times the job duration plus the interval (a
    zero or negative interval counting as no wait at all). *)
Theorem loop_without_signal_keeps_going :
  forall (n : nat) (w : World),
    pending w = [] ->
    running (globals w) = true ->
    exists w',
      worker_loop process_job n w = (OutOfFuel, w') /\
      running (globals w') = true /\
      pending w' = [] /\
      jobs_processed (globals w') = jobs_processed (globals w) + Z.of_nat n /\
      clock w' = clock w
                 + Z.of_nat n * (job_duration (globals w)
                                 + Z.max 0 (JOB_INTERVAL (globals w))).
Proof.
  induction n as [|n IH]; intros w Hp Hr.
  - exists w. split; [simpl; by rewrite Hr|]. split; [exact Hr|].
    split; [exact Hp|]. split; lia.
  - destruct (iteration_process_job w) as (w1 & dt & out & E & _).
    destruct (iteration_quiet w Hp Hr) as (Hg & Hp1 & Hc).
    rewrite E in Hg, Hp1, Hc. cbn [snd] in *.
    rewrite (worker_loop_step _ _ _ _ Hr E).
    destruct (IH w1 Hp1) as (w' & Hloop & Hr' & Hp' & Hj & Hc').
    { by rewrite Hg. }
    exists w'. split; [exact Hloop|]. split; [exact Hr'|]. split; [exact Hp'|].
    rewrite Hj, Hc', Hc, Hg. unfold job_duration. cbn. split; lia.
Qed.

Lemma loop_without_signal_keeps_going_witness :
  exists w',
    worker_loop process_job 4 fresh_worker = (OutOfFuel, w') /\
    running (globals w') = true /\
    pending w' = [] /\
    jobs_processed (globals w') = 0 + Z.of_nat 4 /\
    clock w' = 0 + Z.of_nat 4 * (2 + Z.max 0 30).
Proof.
  apply (loop_without_signal_keeps_going 4 fresh_worker); reflexivity.
Defined.

(** ** Failures *)




